(** * easy-http-media-server: request resolution and directory listings

    A shallow embedding of [server.go], [config.go] and the start-up checks
    of [main.go].  Go strings are byte sequences and are modelled by
    [string] (a list of 8-bit [ascii]); the functions of Go's standard
    library that the handlers call ([net/url], [path], [path/filepath] on a
    Unix target, [strings], [sort], [os.ReadDir]) are modelled after their
    documented behaviour, and what belongs to the operating
    system or to tables that are not part of the repository (the file system,
    the working directory, the MIME table, Unicode case tables, the HTML
    template engine) is gathered in the record [World]. *)

From Stdlib Require Import String Ascii List Bool Arith ZArith NArith Lia.
From Stdlib Require Import Permutation Sorted DecimalString.
Import ListNotations.
Local Open Scope list_scope.
Local Open Scope string_scope.

Set Implicit Arguments.

(* ===================================================================== *)
(** ** Go results *)
(* ===================================================================== *)

(** A Go [error] value.  [err_not_exist] is what [os.IsNotExist] answers on
    it; the text is what [%v] prints (for an [EscapeError], see there). *)
Record error : Type := mkError {
  err_not_exist : bool;
  err_text : string
}.

(** The Go idiom [(value, err)]. *)
Inductive result (A : Type) : Type :=
| Ok (a : A)
| Err (e : error).
Arguments Ok {A} a.
Arguments Err {A} e.

Definition os_IsNotExist (e : error) : bool := err_not_exist e.

(* ===================================================================== *)
(** ** Package strings *)
(* ===================================================================== *)

Module strings.

(** Bytes are compared through their numeric value. *)
Definition byte_le (a b : ascii) : bool := (N_of_ascii a <=? N_of_ascii b)%N.

Definition between (lo hi c : ascii) : bool := byte_le lo c && byte_le c hi.

(** [strings.HasPrefix(s, prefix)]. *)
Definition HasPrefix (s pre : string) : bool := String.prefix pre s.

(** [strings.Contains] for a single byte. *)
Fixpoint ContainsByte (c : ascii) (s : string) : bool :=
  match s with
  | EmptyString => false
  | String a rest => Ascii.eqb a c || ContainsByte c rest
  end.

Fixpoint map_bytes (f : ascii -> ascii) (s : string) : string :=
  match s with
  | EmptyString => EmptyString
  | String a rest => String (f a) (map_bytes f rest)
  end.

Fixpoint isASCII (s : string) : bool :=
  match s with
  | EmptyString => true
  | String a rest => (N_of_ascii a <? 128)%N && isASCII rest
  end.

(** The ASCII branch of [ToLower]: [c += 'a' - 'A'] for ['A' <= c <= 'Z']. *)
Definition lowerByte (c : ascii) : ascii :=
  if between "A" "Z" c then ascii_of_N (N_of_ascii c + 32) else c.

(** [strings.ToLower]: strings made of ASCII bytes only are lowered byte by
    byte; any other string goes through [strings.Map(unicode.ToLower, s)],
    whose Unicode tables are supplied by the caller. *)
Definition ToLower (unicodeLower : string -> string) (s : string) : string :=
  if isASCII s then map_bytes lowerByte s else unicodeLower s.

(** Go's [<] on strings: lexicographic on bytes. *)
Definition lt (a b : string) : bool := String.ltb a b.

End strings.

(* ===================================================================== *)
(** ** Package net/url *)
(* ===================================================================== *)

Module url.

Definition ishex (c : ascii) : bool :=
  strings.between "0" "9" c || strings.between "a" "f" c || strings.between "A" "F" c.

Definition unhex (c : ascii) : N :=
  if strings.between "0" "9" c then N_of_ascii c - 48
  else if strings.between "a" "f" c then N_of_ascii c - 97 + 10
  else if strings.between "A" "F" c then N_of_ascii c - 65 + 10
  else 0.

(** [unhex(s[i+1])<<4 | unhex(s[i+2])]. *)
Definition unhex2 (h l : ascii) : ascii :=
  ascii_of_N (N.lor (N.shiftl (unhex h) 4) (unhex l)).

(** The [EscapeError] of [unescape]: a string type whose value is the text
    from the offending ['%'], cut to three bytes.  [err_text] holds that
    value; [Error()] prints it quoted by [strconv.Quote] after the words
    [invalid URL escape], which is not modelled: [handleRequest] discards
    the error. *)
Definition EscapeError (s : string) : error :=
  mkError false (String.substring 0 3 s).

(** [url.QueryUnescape(s)], that is [unescape(s, encodeQueryComponent)]:
    ["%XY"] with two hexadecimal digits becomes one byte, ['+'] becomes a
    space, a ['%'] not followed by two hexadecimal digits is an error.  Go
    validates the whole string before it builds the output; an error found
    later in the recursion below discards the bytes produced so far, so the
    result is the same. *)
Fixpoint QueryUnescape (s : string) : result string :=
  match s with
  | EmptyString => Ok EmptyString
  | String "%" rest =>
      match rest with
      | String h (String l rest') =>
          if ishex h && ishex l then
            match QueryUnescape rest' with
            | Ok t => Ok (String (unhex2 h l) t)
            | Err e => Err e
            end
          else Err (EscapeError s)
      | _ => Err (EscapeError s)
      end
  | String c rest =>
      match QueryUnescape rest with
      | Ok t => Ok (String (if Ascii.eqb c "+" then " "%char else c) t)
      | Err e => Err e
      end
  end.


(** [shouldEscape(c, encodePathSegment)]. *)
Definition shouldEscape (c : ascii) : bool :=
  if strings.between "a" "z" c || strings.between "A" "Z" c || strings.between "0" "9" c
  then false
  else if existsb (Ascii.eqb c) ["-"; "_"; "."; "~"]%char then false
  else if existsb (Ascii.eqb c) ["$"; "&"; "+"; ","; "/"; ":"; ";"; "="; "?"; "@"]%char
  then existsb (Ascii.eqb c) ["/"; ";"; ","; "?"]%char
  else true.

(** [upperhex[n]] for [n < 16]. *)
Definition upperhex (n : N) : ascii :=
  if (n <? 10)%N then ascii_of_N (48 + n) else ascii_of_N (65 + (n - 10)).

(** [url.PathEscape(s)], that is [escape(s, encodePathSegment)]. *)
Fixpoint PathEscape (s : string) : string :=
  match s with
  | EmptyString => EmptyString
  | String c rest =>
      if shouldEscape c
      then String "%" (String (upperhex (N.shiftr (N_of_ascii c) 4))
                         (String (upperhex (N.land (N_of_ascii c) 15)) (PathEscape rest)))
      else String c (PathEscape rest)
  end.

End url.

(* ===================================================================== *)
(** ** Packages path and path/filepath (Unix) *)
(* ===================================================================== *)

Module path.

(** [strings.Split(s, "/")]: the text between the slashes, never empty as a
    list. *)
Fixpoint split (s : string) : list string :=
  match s with
  | EmptyString => [EmptyString]
  | String c rest =>
      if Ascii.eqb c "/" then EmptyString :: split rest
      else match split rest with
           | h :: t => String c h :: t
           | [] => [String c EmptyString]
           end
  end.

Definition rooted (s : string) : bool :=
  match s with
  | String "/" _ => true
  | _ => false
  end.

(** The elements written so far, last one first.  [Clean] can backtrack over
    the last element unless it is one of the leading [..] of a relative
    path (Go's [out.w > dotdot]). *)
Definition can_backtrack (stack : list string) : bool :=
  match stack with
  | top :: _ => negb (String.eqb top "..")
  | [] => false
  end.

(** One iteration of the loop of [Clean], on a whole path element. *)
Definition clean_step (is_rooted : bool) (stack : list string) (c : string)
  : list string :=
  if String.eqb c "" then stack              (* empty path element *)
  else if String.eqb c "." then stack        (* . element *)
  else if String.eqb c ".." then
    if can_backtrack stack then tl stack     (* .. element: remove to last / *)
    else if is_rooted then stack
    else ".." :: stack                       (* cannot backtrack: append .. *)
  else c :: stack.                           (* real path element *)

Definition clean_elems (is_rooted : bool) (elems : list string) : list string :=
  rev (fold_left (clean_step is_rooted) elems []).

(** [path.Clean]: the shortest path equivalent to [p] by purely lexical
    processing (multiple slashes, [.] elements, inner [..] elements and
    [..] elements at the root are eliminated); the empty result is ["."]. *)
Definition Clean (p : string) : string :=
  if String.eqb p "" then "."
  else
    let out := (if rooted p then "/" else "")
               ++ String.concat "/" (clean_elems (rooted p) (split p)) in
    if String.eqb out "" then "." else out.

(** The same function as Go writes it, byte by byte, kept to check the
    definition above against.  [out] is the write buffer, last byte first,
    so that [out.w] is its length; [dotdot] is the index in [out] where
    [..] must stop. *)
Fixpoint back (dotdot : nat) (dropped : ascii) (out : list ascii) : list ascii :=
  match out with
  | [] => []
  | b :: out' =>
      (* for out.w > dotdot && out.index(out.w) != '/' { out.w-- } *)
      if (dotdot <? List.length out)%nat && negb (Ascii.eqb dropped "/")
      then back dotdot b out' else out
  end.

Definition at_end_or_slash (t : list ascii) : bool :=
  match t with
  | [] => true
  | c :: _ => Ascii.eqb c "/"
  end.

(** The bytes of a real path element and what follows it. *)
Fixpoint span_elem (t : list ascii) : list ascii * list ascii :=
  match t with
  | [] => ([], [])
  | c :: t' =>
      if Ascii.eqb c "/" then ([], t)
      else let (e, r) := span_elem t' in (c :: e, r)
  end.

Fixpoint clean_loop (fuel : nat) (is_rooted : bool) (rest out : list ascii)
  (dotdot : nat) : list ascii :=
  match fuel with
  | O => out
  | S fuel' =>
      match rest with
      | [] => out
      | c :: t =>
          if Ascii.eqb c "/" then clean_loop fuel' is_rooted t out dotdot
          else if Ascii.eqb c "." && at_end_or_slash t
          then clean_loop fuel' is_rooted t out dotdot
          else if Ascii.eqb c "." && Ascii.eqb (hd "/"%char t) "."
                  && negb (Nat.eqb (List.length t) 0) && at_end_or_slash (tl t)
          then
            if (dotdot <? List.length out)%nat then      (* can backtrack *)
              clean_loop fuel' is_rooted (tl t)
                (match out with b :: out' => back dotdot b out' | [] => [] end) dotdot
            else if negb is_rooted then                  (* append .. element *)
              let out1 := if (0 <? List.length out)%nat then "/"%char :: out else out in
              let out2 := "."%char :: "."%char :: out1 in
              clean_loop fuel' is_rooted (tl t) out2 (List.length out2)
            else clean_loop fuel' is_rooted (tl t) out dotdot
          else                                           (* real path element *)
            let out1 :=
              if (is_rooted && negb (Nat.eqb (List.length out) 1))
                 || (negb is_rooted && negb (Nat.eqb (List.length out) 0))
              then "/"%char :: out else out in
            let (e, r) := span_elem rest in
            clean_loop fuel' is_rooted r (rev e ++ out1)%list dotdot
      end
  end.

Definition CleanBytes (p : string) : string :=
  if String.eqb p "" then "."
  else
    let out :=
      clean_loop (S (String.length p)) (rooted p) (list_ascii_of_string p)
        (if rooted p then ["/"%char] else []) (if rooted p then 1 else 0)%nat in
    match out with
    | [] => "."
    | _ => string_of_list_ascii (rev out)
    end.

(** [path.Join] of two elements: empty elements are ignored, the rest is
    joined with slashes and cleaned. *)
Definition Join (a b : string) : string :=
  if String.eqb a "" then (if String.eqb b "" then "" else Clean b)
  else if String.eqb b "" then Clean a
  else Clean (a ++ "/" ++ b).

(** [path.Split]: [dir] is the path up to and including the last slash. *)
Fixpoint split_dir (s : string) : string :=
  match s with
  | EmptyString => EmptyString
  | String c rest =>
      if strings.ContainsByte "/" s then String c (split_dir rest) else EmptyString
  end.

(** [path.Dir]. *)
Definition Dir (p : string) : string := Clean (split_dir p).

End path.

Module filepath.

(** On Unix the separator is ['/'] and there are no volume names, so
    [filepath.Clean] is [path.Clean]. *)
Definition Clean (p : string) : string := path.Clean p.

Definition IsAbs (p : string) : bool := path.rooted p.

(** [filepath.Join] of two elements: everything from the first non-empty
    element on is joined with the separator and cleaned. *)
Definition Join (a b : string) : string :=
  if negb (String.eqb a "") then Clean (a ++ "/" ++ b)
  else if negb (String.eqb b "") then Clean b
  else "".

(** [filepath.Abs] ([unixAbs]); [getwd] is the outcome of [os.Getwd]. *)
Definition Abs (getwd : result string) (p : string) : result string :=
  if IsAbs p then Ok (Clean p)
  else match getwd with
       | Ok wd => Ok (Join wd p)
       | Err e => Err e
       end.

(** The text after the last slash. *)
Definition last_elem (p : string) : string := last (path.split p) "".

(** [filepath.Ext]: the suffix beginning at the last dot of the last
    element, or the empty string. *)
Fixpoint ext_of (s : string) : string :=
  match s with
  | EmptyString => EmptyString
  | String c rest =>
      if strings.ContainsByte "." rest then ext_of rest
      else if Ascii.eqb c "." then s else EmptyString
  end.

Definition Ext (p : string) : string := ext_of (last_elem p).

End filepath.

(* ===================================================================== *)
(** ** config.go *)
(* ===================================================================== *)

Record ServerConfig : Type := { Port : Z; Host : string }.
Record MediaConfig : Type := { Directory : string }.
Record Config : Type := { Server : ServerConfig; Media : MediaConfig }.

(** [fmt.Errorf("...: %w", err)].  [os.IsNotExist] does not look through
    such a wrapper, so it answers false on the result. *)
Definition wrap (msg : string) (e : error) : error :=
  mkError false (msg ++ ": " ++ err_text e).

(** [GetAbsMediaPath]. *)
Definition GetAbsMediaPath (getwd : result string) (c : Config) : result string :=
  match filepath.Abs getwd (Directory (Media c)) with
  | Err e => Err (wrap "failed to get absolute path for media directory" e)
  | Ok absPath => Ok absPath
  end.

(** [IsValidMediaPath]: "checks if a given path is within the media
    directory". *)
Definition IsValidMediaPath (getwd : result string) (c : Config)
    (requestPath : string) : result bool :=
  match GetAbsMediaPath getwd c with
  | Err e => Err e
  | Ok absMediaPath =>
      let cleanPath := filepath.Clean requestPath in
      if String.eqb cleanPath "." || String.eqb cleanPath "/" then Ok true
      else
        let fullPath := filepath.Join absMediaPath cleanPath in
        match filepath.Abs getwd fullPath with
        | Err e => Err (wrap "failed to get absolute path" e)
        | Ok absFullPath => Ok (strings.HasPrefix absFullPath absMediaPath)
        end
  end.

(* ===================================================================== *)
(** ** server.go: data *)
(* ===================================================================== *)

(** [FileInfo], one record of a directory listing.  [Size] is an [int64]
    and [ModTime] a point in time, both kept as integers. *)
Record FileInfo : Type := {
  Name : string;
  Path : string;
  Size : Z;
  ModTime : Z;
  IsDir : bool;
  MimeType : string;
  EncodedPath : string
}.

Record DirectoryData : Type := {
  dd_Path : string;
  dd_ParentPath : string;
  dd_Files : list FileInfo;
  dd_ServerName : string
}.

(** What [os.Stat] and [DirEntry.Info] return ([fs.FileInfo]). *)
Record FileStat : Type := {
  st_Name : string;
  st_Size : Z;
  st_ModTime : Z;
  st_IsDir : bool
}.

(** A directory entry as [os.ReadDir] yields it.  [Info] is the outcome of
    [entry.Info()], which may fail; on Unix it is an [lstat] of the entry,
    made when [serveDirectory] asks for it.  That call is part of the
    entry here and is not recorded among the [syscalls] of a handler. *)
Record DirEntry : Type := { Info : result FileStat }.

(** Everything the handlers obtain from outside the repository. *)
Record World : Type := {
  Getwd : result string;                              (* os.Getwd *)
  Stat : string -> result FileStat;                   (* os.Stat *)
  ReadDir : string -> result (list DirEntry);         (* os.ReadDir *)
  Open : string -> option error;                      (* os.Open, [None] on success *)
  TypeByExtension : string -> string;                 (* mime.TypeByExtension *)
  unicodeLower : string -> string;                    (* strings.Map(unicode.ToLower, _) *)
  sort_Slice : (FileInfo -> FileInfo -> bool) -> list FileInfo -> list FileInfo;
                                                      (* sort.Slice *)
  Execute : DirectoryData -> string * option error
    (* template.Execute: what it wrote to the response, and its error *)
}.

Record Request : Type := { Method : string; URL_Path : string }.

(** The calls of [os.Stat], [os.ReadDir] and [os.Open] that the handlers
    make, in the order they are made. *)
Inductive Syscall : Type :=
| SysStat (p : string)
| SysReadDir (p : string)
| SysOpen (p : string).

Definition syscall_path (c : Syscall) : string :=
  match c with SysStat p | SysReadDir p | SysOpen p => p end.

(** What is written to the client. *)
Inductive Chunk : Type :=
| Text (s : string)
| ServeContent (r : Request) (name : string) (modtime : Z) (file : string).
    (* the file is handed to http.ServeContent, which also picks the status *)

(** The state a handler works on: the response writer (header map, status
    line, body), the process log and the trace of the calls of [os.Stat],
    [os.ReadDir] and [os.Open]. *)
Record Conn : Type := {
  header : list (string * string);
  statusCode : option Z;
  body : list Chunk;
  logged : list string;
  syscalls : list Syscall
}.

Definition conn0 : Conn :=
  {| header := []; statusCode := None; body := []; logged := []; syscalls := [] |}.

Definition Handler : Type := Request -> Conn -> Conn.

Definition StatusOK : Z := 200.
Definition StatusBadRequest : Z := 400.
Definition StatusForbidden : Z := 403.
Definition StatusNotFound : Z := 404.
Definition StatusMethodNotAllowed : Z := 405.
Definition StatusInternalServerError : Z := 500.

(** [w.Header().Set(k, v)]. *)
Fixpoint set_key (k v : string) (h : list (string * string)) : list (string * string) :=
  match h with
  | [] => [(k, v)]
  | (k', v') :: rest => if String.eqb k k' then (k, v) :: rest else (k', v') :: set_key k v rest
  end.

Definition Header_Set (k v : string) (c : Conn) : Conn :=
  {| header := set_key k v (header c); statusCode := statusCode c; body := body c;
     logged := logged c; syscalls := syscalls c |}.

(** [w.WriteHeader(code)]; only the first call counts. *)
Definition WriteHeader (code : Z) (c : Conn) : Conn :=
  {| header := header c;
     statusCode := match statusCode c with Some s => Some s | None => Some code end;
     body := body c; logged := logged c; syscalls := syscalls c |}.

(** [w.Write]: the status line defaults to 200 at the first write. *)
Definition Write (ch : Chunk) (c : Conn) : Conn :=
  {| header := header c;
     statusCode := match statusCode c with Some s => Some s | None => Some StatusOK end;
     body := (body c ++ [ch])%list; logged := logged c; syscalls := syscalls c |}.

Definition Printf (line : string) (c : Conn) : Conn :=
  {| header := header c; statusCode := statusCode c; body := body c;
     logged := (logged c ++ [line])%list; syscalls := syscalls c |}.

Definition sys (call : Syscall) (c : Conn) : Conn :=
  {| header := header c; statusCode := statusCode c; body := body c;
     logged := logged c; syscalls := (syscalls c ++ [call])%list |}.

(** The newline that [fmt.Fprintln] adds. *)
Definition nl : string := String (ascii_of_N 10) EmptyString.

(** [http.Error(w, msg, code)]. *)
Definition http_Error (msg : string) (code : Z) (c : Conn) : Conn :=
  Write (Text (msg ++ nl))
    (WriteHeader code
       (Header_Set "X-Content-Type-Options" "nosniff"
          (Header_Set "Content-Type" "text/plain; charset=utf-8" c))).

(** [http.NotFound(w, r)]. *)
Definition http_NotFound (c : Conn) : Conn :=
  http_Error "404 page not found" StatusNotFound c.

(* ===================================================================== *)
(** ** server.go: handlers *)
(* ===================================================================== *)

(** [corsMiddleware]: the CORS headers are set on every response and an
    [OPTIONS] request is answered at once, without calling [next]. *)
Definition corsMiddleware (next : Handler) : Handler :=
  fun r c =>
    let c := Header_Set "Access-Control-Allow-Origin" "*" c in
    let c := Header_Set "Access-Control-Allow-Methods" "GET, HEAD, OPTIONS" c in
    let c := Header_Set "Access-Control-Allow-Headers" "Content-Type, Range" c in
    if String.eqb (Method r) "OPTIONS" then WriteHeader StatusOK c
    else next r c.

(** The comparison given to [sort.Slice] in [serveDirectory], on the
    records rather than on their indices. *)
Definition less (w : World) (a b : FileInfo) : bool :=
  if negb (Bool.eqb (IsDir a) (IsDir b)) then IsDir a
  else strings.lt (strings.ToLower (unicodeLower w) (Name a))
                  (strings.ToLower (unicodeLower w) (Name b)).

(** The body of the loop over the entries of [serveDirectory]. *)
Definition entry_record (w : World) (urlPath : string) (entry : DirEntry)
  : option FileInfo :=
  match Info entry with
  | Err _ => None                                        (* continue *)
  | Ok info =>
      if strings.HasPrefix (st_Name info) "." then None  (* skip hidden files *)
      else
        let filePath := path.Join urlPath (st_Name info) in
        let mimeType :=
          if negb (st_IsDir info) then
            let m := TypeByExtension w (filepath.Ext (st_Name info)) in
            if String.eqb m "" then "application/octet-stream" else m
          else "" in
        Some {| Name := st_Name info;
                Path := filePath;
                Size := st_Size info;
                ModTime := st_ModTime info;
                IsDir := st_IsDir info;
                MimeType := mimeType;
                EncodedPath := url.PathEscape filePath |}
  end.

(** [files] after the loop: one record per surviving entry, in the order of
    the entries. *)
Fixpoint collect (w : World) (urlPath : string) (entries : list DirEntry)
  : list FileInfo :=
  match entries with
  | [] => []
  | entry :: rest =>
      match entry_record w urlPath entry with
      | Some f => f :: collect w urlPath rest
      | None => collect w urlPath rest
      end
  end.

(** [files] after [sort.Slice]. *)
Definition listing (w : World) (urlPath : string) (entries : list DirEntry)
  : list FileInfo :=
  sort_Slice w (less w) (collect w urlPath entries).

Definition parentPath (urlPath : string) : string :=
  if negb (String.eqb urlPath "/") then
    let p := path.Dir urlPath in
    if String.eqb p "." then "/" else p
  else "".

(** [serveDirectory]. *)
Definition serveDirectory (w : World) (r : Request) (fullPath urlPath : string)
  (c : Conn) : Conn :=
  let c := sys (SysReadDir fullPath) c in
  match ReadDir w fullPath with
  | Err _ => http_Error "Unable to read directory" StatusInternalServerError c
  | Ok entries =>
      let data := {| dd_Path := urlPath;
                     dd_ParentPath := parentPath urlPath;
                     dd_Files := listing w urlPath entries;
                     dd_ServerName := "HTTP Media Server" |} in
      let c := Header_Set "Content-Type" "text/html; charset=utf-8" c in
      let c := Write (Text (fst (Execute w data))) c in
      match snd (Execute w data) with
      | None => c
      | Some err =>
          http_Error "Internal server error" StatusInternalServerError
            (Printf ("Template execution error: " ++ err_text err) c)
      end
  end.

(** [path] without its trailing slashes. *)
Fixpoint strip_slashes (p : string) : string :=
  match p with
  | EmptyString => EmptyString
  | String c rest =>
      let rest' := strip_slashes rest in
      if Ascii.eqb c "/" && String.eqb rest' "" then EmptyString else String c rest'
  end.

(** [filepath.Base]: the last element of the path, ["."] for the empty
    path and ["/"] for a path of slashes only. *)
Definition Base (p : string) : string :=
  if String.eqb p "" then "."
  else
    let b := filepath.last_elem (strip_slashes p) in
    if String.eqb b "" then "/" else b.

(** The double quote, for [filename="%s"]. *)
Definition dquote : string := String (ascii_of_N 34) EmptyString.

(** [fmt.Sprintf("%d", n)]. *)
Definition itoa (n : Z) : string := NilZero.string_of_int (Z.to_int n).

(** [serveFile]. *)
Definition serveFile (w : World) (r : Request) (fullPath : string)
  (fileInfo : FileStat) (c : Conn) : Conn :=
  let c := sys (SysOpen fullPath) c in
  match Open w fullPath with
  | Some _ => http_Error "Unable to open file" StatusInternalServerError c
  | None =>
      let contentType :=
        let m := TypeByExtension w (filepath.Ext fullPath) in
        if String.eqb m "" then "application/octet-stream" else m in
      let c := Header_Set "Content-Type" contentType c in
      let c := Header_Set "Accept-Ranges" "bytes" c in
      let c := Header_Set "Cache-Control" "public, max-age=3600" c in
      let c := Header_Set "Content-Length" (itoa (st_Size fileInfo)) c in
      let filename := Base fullPath in
      let c := Header_Set "Content-Disposition"
                 ("inline; filename=" ++ dquote ++ filename ++ dquote) c in
      {| header := header c; statusCode := statusCode c;
         body := (body c ++ [ServeContent r filename (st_ModTime fileInfo) fullPath])%list;
         logged := logged c; syscalls := syscalls c |}
  end.

(** The path that [handleRequest] derives from the request: decoded,
    cleaned, and joined with the media directory. *)
Definition cleanPath_of (decodedPath : string) : string :=
  let cleanPath := path.Clean decodedPath in
  if String.eqb cleanPath "." then "/" else cleanPath.

(** [handleRequest]. *)
Definition handleRequest (w : World) (cfg : Config) : Handler :=
  fun r c =>
    match url.QueryUnescape (URL_Path r) with
    | Err _ => http_Error "Invalid URL path" StatusBadRequest c
    | Ok decodedPath =>
        let cleanPath := cleanPath_of decodedPath in
        let fullPath := filepath.Join (Directory (Media cfg)) cleanPath in
        match filepath.Abs (Getwd w) (Directory (Media cfg)) with
        | Err _ => http_Error "Internal server error" StatusInternalServerError c
        | Ok absMediaDir =>
            match filepath.Abs (Getwd w) fullPath with
            | Err _ => http_Error "Internal server error" StatusInternalServerError c
            | Ok absFullPath =>
                if negb (strings.HasPrefix absFullPath absMediaDir)
                then http_Error "Forbidden" StatusForbidden c
                else
                  let c := sys (SysStat fullPath) c in
                  match Stat w fullPath with
                  | Err err =>
                      if os_IsNotExist err then
                        http_NotFound
                          (Printf ("File not found: " ++ fullPath
                                   ++ " (requested: " ++ URL_Path r ++ ")") c)
                      else
                        http_Error "Internal server error" StatusInternalServerError
                          (Printf ("Error accessing file " ++ fullPath
                                   ++ ": " ++ err_text err) c)
                  | Ok fileInfo =>
                      if st_IsDir fileInfo
                      then serveDirectory w r fullPath cleanPath c
                      else serveFile w r fullPath fileInfo c
                  end
            end
        end
    end.

(* ===================================================================== *)
(** ** Package sort *)
(* ===================================================================== *)

Module sort.

(** The inner loop of [insertionSortLessFunc]: the new element moves left
    while it is less than its left neighbour.  [sorted] holds the elements
    already placed, the last one first. *)
Fixpoint insert_left (A : Type) (less : A -> A -> bool) (x : A) (sorted : list A)
  : list A :=
  match sorted with
  | [] => [x]
  | y :: rest => if less x y then y :: insert_left less x rest else x :: y :: rest
  end.

(** [insertionSortLessFunc], which is all that [sort.Slice] runs on a slice
    of at most twelve elements. *)
Definition insertionSort (A : Type) (less : A -> A -> bool) (data : list A) : list A :=
  rev (fold_left (fun sorted x => insert_left less x sorted) data []).

End sort.

(* ===================================================================== *)
(** ** Specification vocabulary *)
(* ===================================================================== *)

(** The elements of a cleaned absolute path, e.g. [["data"; "x"]] for
    ["/data/x"]. *)
Definition elements (p : string) : list string :=
  filter (fun e => negb (String.eqb e "")) (path.split p).

Fixpoint list_prefix (xs ys : list string) : bool :=
  match xs, ys with
  | [], _ => true
  | x :: xs', y :: ys' => String.eqb x y && list_prefix xs' ys'
  | _ :: _, [] => false
  end.

(** [p] is [root] or lies under it, element by element. *)
Definition within (root p : string) : bool :=
  list_prefix (elements root) (elements p).

(** A world for examples: an empty disk seen from [/srv], the ASCII part of
    the case tables, no MIME table, insertion sort. *)
Definition world0 : World :=
  {| Getwd := Ok "/srv";
     Stat := fun p => Err (mkError true ("stat " ++ p ++ ": no such file or directory"));
     ReadDir := fun p => Err (mkError true ("open " ++ p ++ ": no such file or directory"));
     Open := fun p => Some (mkError true ("open " ++ p ++ ": no such file or directory"));
     TypeByExtension := fun _ => "";
     unicodeLower := fun s => s;
     sort_Slice := @sort.insertionSort FileInfo;
     Execute := fun d => (dd_Path d, None) |}.

Definition config_at (dir : string) : Config :=
  {| Server := {| Port := 8080; Host := "0.0.0.0" |}; Media := {| Directory := dir |} |}.

(** The outcome of the first half of [handleRequest], up to and including
    the containment check. *)
Inductive Resolution : Type :=
| MalformedPath                                (* decoding failed: 400 *)
| AbsFailed                                    (* filepath.Abs failed: 500 *)
| OutsideRoot                                  (* the check failed: 403 *)
| Resolved (fullPath cleanPath : string).

Definition resolve (w : World) (cfg : Config) (rawPath : string) : Resolution :=
  match url.QueryUnescape rawPath with
  | Err _ => MalformedPath
  | Ok decodedPath =>
      let cleanPath := cleanPath_of decodedPath in
      let fullPath := filepath.Join (Directory (Media cfg)) cleanPath in
      match filepath.Abs (Getwd w) (Directory (Media cfg)) with
      | Err _ => AbsFailed
      | Ok absMediaDir =>
          match filepath.Abs (Getwd w) fullPath with
          | Err _ => AbsFailed
          | Ok absFullPath =>
              if negb (strings.HasPrefix absFullPath absMediaDir) then OutsideRoot
              else Resolved fullPath cleanPath
          end
      end
  end.

(** The second half of [handleRequest]: from [os.Stat] on. *)
Definition dispatch (w : World) (r : Request) (fullPath cleanPath : string)
  (c : Conn) : Conn :=
  let c := sys (SysStat fullPath) c in
  match Stat w fullPath with
  | Err err =>
      if os_IsNotExist err then
        http_NotFound
          (Printf ("File not found: " ++ fullPath
                   ++ " (requested: " ++ URL_Path r ++ ")") c)
      else
        http_Error "Internal server error" StatusInternalServerError
          (Printf ("Error accessing file " ++ fullPath ++ ": " ++ err_text err) c)
  | Ok fileInfo =>
      if st_IsDir fileInfo
      then serveDirectory w r fullPath cleanPath c
      else serveFile w r fullPath fileInfo c
  end.

(** What [sort.Slice] asks of its [less] argument: a strict weak order. *)
Definition strict_weak_order (A : Type) (lt : A -> A -> bool) : Prop :=
  (forall a, lt a a = false) /\
  (forall a b c, lt a b = true -> lt b c = true -> lt a c = true) /\
  (forall a b c, lt a c = true -> lt a b = true \/ lt b c = true).

(** A slice is sorted by [lt] when no element is less than an earlier one. *)
Definition sorted_by (A : Type) (lt : A -> A -> bool) (l : list A) : Prop :=
  StronglySorted (fun a b => lt b a = false) l.

(** What [sort.Slice] promises: the slice is rearranged by swaps, and it is
    sorted when [less] is a strict weak order.  Nothing is promised about
    the order of elements that are not less than one another ("the sort is
    not guaranteed to be stable"). *)
Definition sort_contract (A : Type)
  (srt : (A -> A -> bool) -> list A -> list A) : Prop :=
  forall lt l,
    Permutation l (srt lt l) /\ (strict_weak_order lt -> sorted_by lt (srt lt l)).

(** The name under which a record is compared. *)
Definition lowerName (w : World) (f : FileInfo) : string :=
  strings.ToLower (unicodeLower w) (Name f).

(** No two different records of the same kind have names that are equal
    once lowered. *)
Definition tie_free (w : World) (l : list FileInfo) : Prop :=
  forall a b, In a l -> In b l ->
    IsDir a = IsDir b -> lowerName w a = lowerName w b -> a = b.

(** A regular file and a directory as [os.ReadDir] reports them. *)
Definition file_entry (name : string) (size : Z) : DirEntry :=
  {| Info := Ok {| st_Name := name; st_Size := size; st_ModTime := 0; st_IsDir := false |} |}.

Definition dir_entry (name : string) : DirEntry :=
  {| Info := Ok {| st_Name := name; st_Size := 4096; st_ModTime := 0; st_IsDir := true |} |}.


(** The effect of [url.QueryUnescape] on a text without ['%']. *)
Definition plus_to_space (c : ascii) : ascii :=
  if Ascii.eqb c "+" then " "%char else c.

Definition spaces (s : string) : string := strings.map_bytes plus_to_space s.

(** A real path element: not empty, not [.], not [..]. *)
Definition is_name (e : string) : bool :=
  negb (String.eqb e "" || String.eqb e "." || String.eqb e "..").

(** What [Clean] writes: the elements joined by slashes, after a slash when
    the path is rooted. *)
Definition render (is_rooted : bool) (elems : list string) : string :=
  (if is_rooted then "/" else "") ++ String.concat "/" elems.

(** The loop of [Clean], started on elements already written. *)
Definition clean_from (is_rooted : bool) (elems stack : list string) : list string :=
  fold_left (path.clean_step is_rooted) elems stack.

(** The elements written by [Clean] are real names, apart from the [..]
    elements of a relative path. *)
Definition stack_ok (is_rooted : bool) (stack : list string) : Prop :=
  forall e, In e stack -> is_name e = true \/ (e = ".." /\ is_rooted = false).

(** Real names that contain no slash. *)
Definition names (cs : list string) : Prop :=
  forall e, In e cs -> is_name e = true /\ strings.ContainsByte "/" e = false.

(** Path elements as [Clean] leaves them: not empty, without slash. *)
Definition plain (cs : list string) : Prop :=
  forall e, In e cs -> e <> "" /\ strings.ContainsByte "/" e = false.

(** A disk on which every path names a regular file that can be opened. *)
Definition world_files : World :=
  {| Getwd := Ok "/srv";
     Stat := fun p => Ok {| st_Name := Base p; st_Size := 1; st_ModTime := 0;
                            st_IsDir := false |};
     ReadDir := fun p => Err (mkError false ("open " ++ p ++ ": not a directory"));
     Open := fun _ => None;
     TypeByExtension := fun _ => "";
     unicodeLower := fun s => s;
     sort_Slice := @sort.insertionSort FileInfo;
     Execute := fun d => (dd_Path d, None) |}.

(** Every call into the file system made for a request is on a path that,
    made absolute, is the media directory or lies under it. *)
Definition stays_within (w : World) (cfg : Config) (r : Request) : Prop :=
  forall call, In call (syscalls (handleRequest w cfg r conn0)) ->
    exists absMediaDir absPath,
      filepath.Abs (Getwd w) (Directory (Media cfg)) = Ok absMediaDir /\
      filepath.Abs (Getwd w) (syscall_path call) = Ok absPath /\
      within absMediaDir absPath = true.

(** A media directory [/data] that holds the files [a+b.txt] and
    [100%.txt]. *)
Definition world_plus : World :=
  {| Getwd := Ok "/srv";
     Stat := fun p =>
       if String.eqb p "/data"
       then Ok {| st_Name := "data"; st_Size := 4096; st_ModTime := 0; st_IsDir := true |}
       else if String.eqb p "/data/a+b.txt" || String.eqb p "/data/100%.txt"
       then Ok {| st_Name := Base p; st_Size := 5; st_ModTime := 0; st_IsDir := false |}
       else Err (mkError true ("stat " ++ p ++ ": no such file or directory"));
     ReadDir := fun p =>
       if String.eqb p "/data" then Ok [file_entry "100%.txt" 5; file_entry "a+b.txt" 5]
       else Err (mkError false ("open " ++ p ++ ": not a directory"));
     Open := fun _ => None;
     TypeByExtension := fun _ => "";
     unicodeLower := fun s => s;
     sort_Slice := @sort.insertionSort FileInfo;
     Execute := fun d => (dd_Path d, None) |}.

(** A ['%'] that is not followed by two hexadecimal digits. *)
Fixpoint bad_escape (s : string) : bool :=
  match s with
  | EmptyString => false
  | String "%" rest =>
      match rest with
      | String h (String l rest') =>
          if url.ishex h && url.ishex l then bad_escape rest' else true
      | _ => true
      end
  | String _ rest => bad_escape rest
  end.

(** The elements that insertion sort has placed so far, last one first:
    none is less than one that comes after it in this list. *)
Definition placed (A : Type) (lt : A -> A -> bool) (l : list A) : Prop :=
  StronglySorted (fun a b => lt a b = false) l.

(** [Validate], which [LoadConfig] runs on every configuration it returns;
    [stat] is [os.Stat]. *)
Definition Validate (stat : string -> result FileStat) (c : Config) : option error :=
  if (Port (Server c) <? 1)%Z || (Port (Server c) >? 65535)%Z then
    Some (mkError false ("invalid port number: " ++ itoa (Port (Server c))
                         ++ " (must be between 1-65535)"))
  else if String.eqb (Host (Server c)) "" then
    Some (mkError false "host cannot be empty")
  else if String.eqb (Directory (Media c)) "" then
    Some (mkError false "media directory cannot be empty")
  else
    match stat (Directory (Media c)) with
    | Err err =>
        if os_IsNotExist err then None
        else Some (wrap "media directory is not accessible" err)
    | Ok _ => None
    end.

(** All strings of at most [n] bytes over the bytes that matter to
    [Clean]: the slash, the dot and a letter. *)
Fixpoint words (n : nat) : list string :=
  match n with
  | O => [EmptyString]
  | S k =>
      EmptyString
      :: flat_map (fun w => [String "/" w; String "." w; String "a" w]) (words k)
  end.

(** The table of Go's own test of [path.Clean]. *)
Definition cleantests : list (string * string) :=
  [ ("", "."); ("abc", "abc"); ("abc/def", "abc/def"); ("a/b/c", "a/b/c");
    (".", "."); ("..", ".."); ("../..", "../.."); ("../../abc", "../../abc");
    ("/abc", "/abc"); ("/", "/");
    ("abc/", "abc"); ("abc/def/", "abc/def"); ("a/b/c/", "a/b/c"); ("./", ".");
    ("../", ".."); ("../../", "../.."); ("/abc/", "/abc");
    ("abc//def//ghi", "abc/def/ghi"); ("//abc", "/abc"); ("///abc", "/abc");
    ("//abc//", "/abc"); ("abc//", "abc");
    ("abc/./def", "abc/def"); ("/./abc/def", "/abc/def"); ("abc/.", "abc");
    ("abc/def/ghi/../jkl", "abc/def/jkl"); ("abc/def/../ghi/../jkl", "abc/jkl");
    ("abc/def/..", "abc"); ("abc/def/../..", "."); ("/abc/def/../..", "/");
    ("abc/def/../../..", ".."); ("/abc/def/../../..", "/");
    ("abc/def/../../../ghi/jkl/../../../mno", "../../mno");
    ("abc/./../def", "def"); ("abc//./../def", "def");
    ("abc/../../././../def", "../../def") ].

(** The responses of [handleRequest], by status and body; [p] is the path
    on disk and [html] what the template wrote. *)
Inductive response_shape (r : Request) : option Z -> list Chunk -> Prop :=
| shape_bad_request :
    response_shape r (Some StatusBadRequest) [Text ("Invalid URL path" ++ nl)]
| shape_forbidden :
    response_shape r (Some StatusForbidden) [Text ("Forbidden" ++ nl)]
| shape_not_found :
    response_shape r (Some StatusNotFound) [Text ("404 page not found" ++ nl)]
| shape_internal :
    response_shape r (Some StatusInternalServerError) [Text ("Internal server error" ++ nl)]
| shape_unreadable :
    response_shape r (Some StatusInternalServerError)
      [Text ("Unable to read directory" ++ nl)]
| shape_unopened :
    response_shape r (Some StatusInternalServerError) [Text ("Unable to open file" ++ nl)]
| shape_listing html :
    response_shape r (Some StatusOK) [Text html]
| shape_listing_cut html :
    response_shape r (Some StatusOK) [Text html; Text ("Internal server error" ++ nl)]
| shape_content p name modtime :
    response_shape r None [ServeContent r name modtime p].

(** [w.Header().Get(k)]. *)
Fixpoint header_get (k : string) (h : list (string * string)) : option string :=
  match h with
  | [] => None
  | (k', v) :: rest => if String.eqb k k' then Some v else header_get k rest
  end.

(** The bytes that [url.PathEscape] can write: letters, digits, the marks
    [-_.~], the reserved [$&+:=@] and the percent sign. *)
Definition link_byte (c : ascii) : bool :=
  strings.between "a" "z" c || strings.between "A" "Z" c || strings.between "0" "9" c
  || existsb (Ascii.eqb c) ["-"; "_"; "."; "~"; "$"; "&"; "+"; ":"; "="; "@"; "%"]%char.

Fixpoint all_bytes (P : ascii -> bool) (s : string) : bool :=
  match s with
  | EmptyString => true
  | String c rest => P c && all_bytes P rest
  end.

(** The entries that get a record: metadata readable, name not hidden. *)
Definition visible (entry : DirEntry) : bool :=
  match Info entry with
  | Ok info => negb (strings.HasPrefix (st_Name info) ".")
  | Err _ => false
  end.

(** [GetFileIcon]: the icon of a record, as UTF-8 bytes. *)
Definition GetFileIcon (w : World) (f : FileInfo) : string :=
  if IsDir f then "📁"
  else
    let ext := strings.ToLower (unicodeLower w) (filepath.Ext (Name f)) in
    if strings.HasPrefix (MimeType f) "video/" || String.eqb ext ".mp4"
       || String.eqb ext ".avi" || String.eqb ext ".mkv" || String.eqb ext ".mov"
       || String.eqb ext ".wmv" || String.eqb ext ".flv" || String.eqb ext ".webm"
    then "🎬"
    else if strings.HasPrefix (MimeType f) "audio/" || String.eqb ext ".mp3"
       || String.eqb ext ".wav" || String.eqb ext ".flac" || String.eqb ext ".aac"
       || String.eqb ext ".ogg" || String.eqb ext ".m4a"
    then "🎵"
    else if strings.HasPrefix (MimeType f) "image/" || String.eqb ext ".jpg"
       || String.eqb ext ".jpeg" || String.eqb ext ".png" || String.eqb ext ".gif"
       || String.eqb ext ".bmp" || String.eqb ext ".webp"
    then "🖼️"
    else "📄".

(** [GetFileClass]: the CSS class of a record. *)
Definition GetFileClass (w : World) (f : FileInfo) : string :=
  if IsDir f then "directory"
  else
    let ext := strings.ToLower (unicodeLower w) (filepath.Ext (Name f)) in
    if strings.HasPrefix (MimeType f) "video/" || String.eqb ext ".mp4"
       || String.eqb ext ".avi" || String.eqb ext ".mkv" || String.eqb ext ".mov"
       || String.eqb ext ".wmv" || String.eqb ext ".flv" || String.eqb ext ".webm"
    then "video-file"
    else if strings.HasPrefix (MimeType f) "audio/" || String.eqb ext ".mp3"
       || String.eqb ext ".wav" || String.eqb ext ".flac" || String.eqb ext ".aac"
       || String.eqb ext ".ogg" || String.eqb ext ".m4a"
    then "audio-file"
    else if strings.HasPrefix (MimeType f) "image/" || String.eqb ext ".jpg"
       || String.eqb ext ".jpeg" || String.eqb ext ".png" || String.eqb ext ".gif"
       || String.eqb ext ".bmp" || String.eqb ext ".webp"
    then "image-file"
    else "".

(** The configuration that [CreateDefaultConfig] writes. *)
Definition defaultConfig : Config :=
  {| Server := {| Port := 8080; Host := "0.0.0.0" |};
     Media := {| Directory := "./media" |} |}.

(** [CreateDefaultConfig]; [marshal] is [yaml.Marshal] and [writeFile] is
    [os.WriteFile] with mode 0644. *)
Definition CreateDefaultConfig (marshal : Config -> result string)
  (writeFile : string -> string -> option error) (configPath : string) : option error :=
  match marshal defaultConfig with
  | Err err => Some (wrap "failed to marshal default config" err)
  | Ok data =>
      match writeFile configPath data with
      | Some err => Some (wrap "failed to write default config file" err)
      | None => None
      end
  end.

(** The defaults that [LoadConfig] sets for the values the file leaves at
    their zero. *)
Definition withDefaults (c : Config) : Config :=
  let host := if String.eqb (Host (Server c)) "" then "0.0.0.0" else Host (Server c) in
  let port := if (Port (Server c) =? 0)%Z then 8080%Z else Port (Server c) in
  let dir := if String.eqb (Directory (Media c)) "" then "./media"
             else Directory (Media c) in
  {| Server := {| Port := port; Host := host |}; Media := {| Directory := dir |} |}.

(** [LoadConfig]; [readFile] is the outcome of [os.ReadFile(configPath)],
    [unmarshal] is [yaml.Unmarshal] into a zero [Config], [stat] is
    [os.Stat]. *)
Definition LoadConfig (readFile : result string) (unmarshal : string -> result Config)
  (stat : string -> result FileStat) : result Config :=
  match readFile with
  | Err err => Err (wrap "failed to read config file" err)
  | Ok data =>
      match unmarshal data with
      | Err err => Err (wrap "failed to parse config file" err)
      | Ok config =>
          let config := withDefaults config in
          match Validate stat config with
          | Some err => Err (wrap "configuration validation failed" err)
          | None => Ok config
          end
      end
  end.

(** [filepath.Dir] on Unix: all but the last element of the path,
    cleaned. *)
Definition filepath_Dir (p : string) : string := filepath.Clean (path.split_dir p).

(** [generateConfig] of main.go; [mkdirAll] is [os.MkdirAll] with mode
    0755. *)
Definition generateConfig (mkdirAll : string -> option error)
  (marshal : Config -> result string) (writeFile : string -> string -> option error)
  (configPath : string) : option error :=
  let dir := filepath_Dir configPath in
  if negb (String.eqb dir ".") then
    match mkdirAll dir with
    | Some err => Some (wrap "failed to create config directory" err)
    | None => CreateDefaultConfig marshal writeFile configPath
    end
  else CreateDefaultConfig marshal writeFile configPath.

(** [validateMediaDirectory] of main.go: its error, and what it logs. *)
Definition validateMediaDirectory (getwd : result string)
  (stat : string -> result FileStat) (mkdirAll : string -> option error)
  (readDir : string -> result (list DirEntry)) (mediaDir : string)
  : option error * list string :=
  match filepath.Abs getwd mediaDir with
  | Err err => (Some (wrap "failed to get absolute path" err), [])
  | Ok absPath =>
      match stat absPath with
      | Err err =>
          if os_IsNotExist err then
            let line := "Media directory doesn't exist, creating: " ++ absPath in
            match mkdirAll absPath with
            | Some err' => (Some (wrap "failed to create media directory" err'), [line])
            | None => (None, [line])
            end
          else (Some (wrap "failed to access media directory" err), [])
      | Ok info =>
          if negb (st_IsDir info) then
            (Some (mkError false ("media path is not a directory: " ++ absPath)), [])
          else
            match readDir absPath with
            | Err err => (Some (wrap "media directory is not readable" err), [])
            | Ok entries =>
                (None, ["Media directory validated: " ++ absPath ++ " ("
                        ++ itoa (Z.of_nat (List.length entries)) ++ " items)"])
            end
      end
  end.

(* ===================================================================== *)
(** * Properties *)
(* ===================================================================== *)

(** Case analysis on the eight bits of a byte. *)
Ltac byte_cases c := destruct c as [[] [] [] [] [] [] [] []].

(** ** Checks of the model *)

Example Clean_passes_cleantests :
  forallb (fun t => String.eqb (path.Clean (fst t)) (snd t)) cleantests = true.
Proof. reflexivity. Qed.

Example Clean_agrees_with_CleanBytes :
  forallb (fun p => String.eqb (path.Clean p) (path.CleanBytes p))
          (words 7 ++ map fst cleantests)%list = true.
Proof. vm_compute. reflexivity. Qed.

Example Join_examples :
  path.Join "/" "a.txt" = "/a.txt" /\ path.Join "/sub" "x y" = "/sub/x y" /\
  path.Join "a" "" = "a" /\ path.Join "" "" = "" /\
  filepath.Join "./media" "/" = "media" /\ filepath.Join "/data" "/a/b" = "/data/a/b" /\
  filepath.Abs (Ok "/srv") "media/../x" = Ok "/srv/x" /\
  filepath.Ext "x.tar.gz" = ".gz" /\ filepath.Ext "/a.b/c" = "" /\
  path.Dir "/a/b" = "/a" /\ path.Dir "/a" = "/" /\ parentPath "/" = "" /\
  parentPath "/sub" = "/".
Proof. repeat split; reflexivity. Qed.

Example unescape_examples :
  url.QueryUnescape "/a%20b+c%2Fd" = Ok "/a b c/d" /\
  url.QueryUnescape "/a%2" = Err (url.EscapeError "%2") /\
  url.QueryUnescape "/a%zzb" = Err (url.EscapeError "%zz") /\
  url.PathEscape "/sub dir/a+b;c.txt~" = "%2Fsub%20dir%2Fa+b%3Bc.txt~".
Proof. repeat split; reflexivity. Qed.

(** A configuration that [LoadConfig] accepts names a media directory. *)
Lemma Validate_directory_not_empty (stat : string -> result FileStat) (c : Config) :
  Validate stat c = None -> Directory (Media c) <> "".
Proof.
  unfold Validate. intros H E. rewrite E in H.
  destruct ((Port (Server c) <? 1)%Z || (Port (Server c) >? 65535)%Z); [discriminate|].
  destruct (String.eqb (Host (Server c)) ""); discriminate.
Qed.

(** ** The two halves of handleRequest *)

(** [handleRequest] is [resolve] followed by [dispatch]. *)
Lemma handleRequest_resolve (w : World) (cfg : Config) (r : Request) (c : Conn) :
  handleRequest w cfg r c =
  match resolve w cfg (URL_Path r) with
  | MalformedPath => http_Error "Invalid URL path" StatusBadRequest c
  | AbsFailed => http_Error "Internal server error" StatusInternalServerError c
  | OutsideRoot => http_Error "Forbidden" StatusForbidden c
  | Resolved fullPath cleanPath => dispatch w r fullPath cleanPath c
  end.
Proof.
  unfold handleRequest, resolve, dispatch.
  destruct (url.QueryUnescape (URL_Path r)) as [d|e]; [|reflexivity].
  destruct (filepath.Abs (Getwd w) (Directory (Media cfg))) as [am|e]; [|reflexivity].
  destruct (filepath.Abs (Getwd w) _) as [af|e]; [|reflexivity].
  destruct (negb (strings.HasPrefix af am)); reflexivity.
Qed.

(** ** Decoding failures *)

Lemma QueryUnescape_fails_iff (s : string) :
  (exists e, url.QueryUnescape s = Err e) <-> bad_escape s = true.
Proof.
  assert (H : forall n s, (String.length s <= n)%nat ->
            ((exists e, url.QueryUnescape s = Err e) <-> bad_escape s = true)).
  { clear s. induction n as [|n IH]; intros s Hlen.
    - destruct s; simpl in *; [|lia]. split; [intros [e He]|]; discriminate.
    - destruct s as [|c rest]; simpl.
      + split; [intros [e He]|]; discriminate.
      + simpl in Hlen.
        assert (Hrest : (exists e, url.QueryUnescape rest = Err e)
                        <-> bad_escape rest = true) by (apply IH; lia).
        assert (Hplain :
          (exists e, match url.QueryUnescape rest with
                     | Ok t => Ok (String (if Ascii.eqb c "+" then " "%char else c) t)
                     | Err e => Err e end = Err e) <-> bad_escape rest = true).
        { rewrite <- Hrest. destruct (url.QueryUnescape rest).
          - split; intros [e He]; discriminate.
          - split; intros _; eauto. }
        byte_cases c; try exact Hplain.
        destruct rest as [|h [|l rest']]; simpl;
          try (split; [reflexivity | intros _; eauto]).
        destruct (url.ishex h && url.ishex l).
        * assert (Hr : (exists e, url.QueryUnescape rest' = Err e)
                       <-> bad_escape rest' = true) by (apply IH; simpl in Hlen; lia).
          rewrite <- Hr. destruct (url.QueryUnescape rest').
          -- split; intros [e He]; discriminate.
          -- split; intros _; eauto.
        * split; [reflexivity | intros _; eauto]. }
  apply (H (String.length s)); lia.
Qed.

(** C8.  When percent-decoding of the request path fails, [handleRequest]
    answers 400 "Invalid URL path" and does nothing else: no call into the
    file system is made, nothing is logged, and the response is the same
    whatever the media directory and the state of the disk are, so neither
    cleaning nor joining contributes to it. *)
Theorem C8_malformed_path_is_400 (w : World) (cfg : Config) (r : Request) (e : error) :
  url.QueryUnescape (URL_Path r) = Err e ->
  resolve w cfg (URL_Path r) = MalformedPath /\
  statusCode (handleRequest w cfg r conn0) = Some StatusBadRequest /\
  body (handleRequest w cfg r conn0) = [Text ("Invalid URL path" ++ nl)] /\
  syscalls (handleRequest w cfg r conn0) = [] /\
  logged (handleRequest w cfg r conn0) = [] /\
  forall (w' : World) (cfg' : Config),
    handleRequest w' cfg' r conn0 = handleRequest w cfg r conn0.
Proof.
  intros H.
  assert (Hr : forall w0 cfg0, resolve w0 cfg0 (URL_Path r) = MalformedPath).
  { intros. unfold resolve. rewrite H. reflexivity. }
  repeat split; try (rewrite handleRequest_resolve, Hr; reflexivity).
  - apply Hr.
  - intros. rewrite !handleRequest_resolve, !Hr. reflexivity.
Qed.

Lemma C8_witness :
  let r := {| Method := "GET"; URL_Path := "/movies/100%.mp4" |} in
  statusCode (handleRequest world0 (config_at "/data") r conn0) = Some StatusBadRequest /\
  syscalls (handleRequest world0 (config_at "/data") r conn0) = [].
Proof.
  intros r.
  destruct (@C8_malformed_path_is_400 world0 (config_at "/data") r
              (url.EscapeError "%.m") eq_refl) as (_ & Hs & _ & Hc & _).
  split; [exact Hs | exact Hc].
Defined.

(** ** Dispatch on the result of os.Stat *)

Lemma statusCode_http_Error (msg : string) (code : Z) (c : Conn) :
  statusCode c = None -> statusCode (http_Error msg code c) = Some code.
Proof. intros H. unfold http_Error. simpl. rewrite H. reflexivity. Qed.

Lemma serveDirectory_status (w : World) (r : Request) (fullPath urlPath : string)
  (c : Conn) :
  statusCode c = None ->
  statusCode (serveDirectory w r fullPath urlPath c) = Some StatusOK \/
  statusCode (serveDirectory w r fullPath urlPath c) = Some StatusInternalServerError.
Proof.
  intros H. unfold serveDirectory.
  destruct (ReadDir w fullPath) as [entries|e].
  - left. destruct (snd (Execute w _)); simpl; rewrite H; reflexivity.
  - right. apply statusCode_http_Error. exact H.
Qed.

Lemma serveFile_status (w : World) (r : Request) (fullPath : string)
  (fileInfo : FileStat) (c : Conn) :
  statusCode c = None ->
  statusCode (serveFile w r fullPath fileInfo c) = None \/
  statusCode (serveFile w r fullPath fileInfo c) = Some StatusInternalServerError.
Proof.
  intros H. unfold serveFile.
  destruct (Open w fullPath) as [e|].
  - right. apply statusCode_http_Error. exact H.
  - left. exact H.
Qed.

(** C9.  Once the path has passed the containment check, [handleRequest]
    calls [os.Stat] on it before anything else; the answer is 404 exactly
    when [os.Stat] fails with a not-exist error, and 500 for every other
    [os.Stat] error.  In the 500 case the cause is written to the log, and
    the body sent to the client is the fixed text "Internal server error",
    which does not depend on the cause. *)
Theorem C9_stat_errors (w : World) (cfg : Config) (r : Request)
  (fullPath cleanPath : string) :
  resolve w cfg (URL_Path r) = Resolved fullPath cleanPath ->
  let out := handleRequest w cfg r conn0 in
  hd_error (syscalls out) = Some (SysStat fullPath) /\
  (statusCode out = Some StatusNotFound <->
   exists e, Stat w fullPath = Err e /\ os_IsNotExist e = true) /\
  (forall e, Stat w fullPath = Err e -> os_IsNotExist e = true ->
     body out = [Text ("404 page not found" ++ nl)]) /\
  (forall e, Stat w fullPath = Err e -> os_IsNotExist e = false ->
     statusCode out = Some StatusInternalServerError /\
     body out = [Text ("Internal server error" ++ nl)] /\
     logged out = ["Error accessing file " ++ fullPath ++ ": " ++ err_text e]).
Proof.
  intros Hres out. subst out. rewrite handleRequest_resolve, Hres.
  unfold dispatch.
  destruct (Stat w fullPath) as [fileInfo|err] eqn:Hstat.
  - repeat split; try (intros; discriminate).
    + destruct (st_IsDir fileInfo); unfold serveDirectory, serveFile.
      * destruct (ReadDir w fullPath); [destruct (snd (Execute w _))|]; reflexivity.
      * destruct (Open w fullPath); reflexivity.
    + intros H. exfalso.
      destruct (st_IsDir fileInfo).
      * destruct (@serveDirectory_status w r fullPath cleanPath
                    (sys (SysStat fullPath) conn0) eq_refl) as [E|E];
          rewrite E in H; discriminate.
      * destruct (@serveFile_status w r fullPath fileInfo
                    (sys (SysStat fullPath) conn0) eq_refl) as [E|E];
          rewrite E in H; discriminate.
    + intros (e & He & _). discriminate.
  - destruct (os_IsNotExist err) eqn:Hne.
    + split; [reflexivity|]. split; [|split].
      * split; [intros _; exists err; split; [reflexivity | exact Hne] | reflexivity].
      * intros e He _. reflexivity.
      * intros e He Hf. inversion He; subst. rewrite Hne in Hf. discriminate.
    + split; [reflexivity|]. split; [|split].
      * split; [intros H; discriminate|].
        intros (e & He & Hf). inversion He; subst. rewrite Hne in Hf. discriminate.
      * intros e He Hf. inversion He; subst. rewrite Hne in Hf. discriminate.
      * intros e He _. inversion He; subst. repeat split; reflexivity.
Qed.

Lemma C9_witness :
  let r := {| Method := "GET"; URL_Path := "/missing.mp4" |} in
  statusCode (handleRequest world0 (config_at "/data") r conn0) = Some StatusNotFound.
Proof.
  intros r.
  destruct (@C9_stat_errors world0 (config_at "/data") r "/data/missing.mp4"
              "/missing.mp4" eq_refl) as (_ & Hiff & _).
  apply Hiff. eexists. split; reflexivity.
Defined.

(** ** Request methods *)

(** C7 (as amended).  An [OPTIONS] request is answered by the CORS
    middleware itself, whatever handler it wraps: the status is 200, the
    three CORS headers are set, nothing is written to the body, and the
    wrapped handler is not run (no log line, no call into the file
    system). *)
Theorem C7_options_is_200 (next : Handler) (r : Request) :
  Method r = "OPTIONS" ->
  corsMiddleware next r conn0 =
  {| header := [("Access-Control-Allow-Origin", "*");
                ("Access-Control-Allow-Methods", "GET, HEAD, OPTIONS");
                ("Access-Control-Allow-Headers", "Content-Type, Range")];
     statusCode := Some StatusOK;
     body := []; logged := []; syscalls := [] |}.
Proof.
  intros H. unfold corsMiddleware. rewrite H. reflexivity.
Qed.

Lemma C7_witness :
  statusCode (corsMiddleware (handleRequest world0 (config_at "/data"))
                {| Method := "OPTIONS"; URL_Path := "/" |} conn0) = Some StatusOK.
Proof.
  rewrite (@C7_options_is_200 (handleRequest world0 (config_at "/data"))
             {| Method := "OPTIONS"; URL_Path := "/" |} eq_refl).
  reflexivity.
Defined.

(** C7 as stated fails: [OPTIONS] is neither [GET] nor [HEAD], and the
    answer on the browse path is 200, not 405. *)
Lemma C7_options_not_405 :
  ~ (forall (w : World) (cfg : Config) (r : Request),
       Method r <> "GET" -> Method r <> "HEAD" ->
       statusCode (corsMiddleware (handleRequest w cfg) r conn0)
       = Some StatusMethodNotAllowed).
Proof.
  intros H.
  specialize (H world0 (config_at "/data") {| Method := "OPTIONS"; URL_Path := "/" |}).
  simpl in H. discriminate H; intros E; discriminate E.
Qed.

(** [handleRequest] never looks at the method: apart from the request that
    is handed on to [http.ServeContent], two requests for the same path get
    the same treatment. *)
Lemma handleRequest_ignores_method (w : World) (cfg : Config) (r : Request)
  (m : string) :
  let r' := {| Method := m; URL_Path := URL_Path r |} in
  statusCode (handleRequest w cfg r' conn0) = statusCode (handleRequest w cfg r conn0) /\
  syscalls (handleRequest w cfg r' conn0) = syscalls (handleRequest w cfg r conn0) /\
  logged (handleRequest w cfg r' conn0) = logged (handleRequest w cfg r conn0).
Proof.
  intros r'. rewrite !handleRequest_resolve. simpl.
  destruct (resolve w cfg (URL_Path r)) as [ | | |fullPath cleanPath];
    try (repeat split; reflexivity).
  unfold dispatch. simpl.
  destruct (Stat w fullPath) as [fi|err].
  - destruct (st_IsDir fi).
    + unfold serveDirectory.
      destruct (ReadDir w fullPath); [destruct (snd (Execute w _))|]; repeat split; reflexivity.
    + unfold serveFile. destruct (Open w fullPath); repeat split; reflexivity.
  - destruct (os_IsNotExist err); repeat split; reflexivity.
Qed.

(** ** The containment check *)

(** C2 fails on the code.  With the media directory [/data], the request
    path [../data-other] is accepted by [IsValidMediaPath], and the check
    of [handleRequest] passes for the same candidate [/data-other], which
    is a sibling of [/data] and not within it. *)
Theorem C2_sibling_accepted :
  IsValidMediaPath (Ok "/srv") (config_at "/data") "../data-other" = Ok true /\
  filepath.Abs (Ok "/srv") (filepath.Join "/data" "../data-other") = Ok "/data-other" /\
  strings.HasPrefix "/data-other" "/data" = true /\
  strings.HasPrefix "/media2" "/media" = true /\
  within "/data" "/data-other" = false /\
  within "/media" "/media2" = false.
Proof. repeat split; reflexivity. Qed.

(** ** Byte-wise order on strings *)

Lemma ltb_irrefl (s : string) : strings.lt s s = false.
Proof.
  unfold strings.lt, String.ltb.
  assert (H : String.compare s s = Eq).
  { induction s as [|c s IH]; simpl; [reflexivity|].
    unfold Ascii.compare. rewrite N.compare_refl. exact IH. }
  rewrite H. reflexivity.
Qed.

Lemma compare_lt_trans (a b c : string) :
  String.compare a b = Lt -> String.compare b c = Lt -> String.compare a c = Lt.
Proof.
  revert b c. induction a as [|x a IH]; intros [|y b] [|z c]; simpl;
    try discriminate; try reflexivity.
  unfold Ascii.compare.
  destruct (N.compare_spec (N_of_ascii x) (N_of_ascii y)) as [Exy|Lxy|Gxy];
    try discriminate;
    destruct (N.compare_spec (N_of_ascii y) (N_of_ascii z)) as [Eyz|Lyz|Gyz];
    try discriminate; intros H1 H2.
  - rewrite Exy, Eyz, N.compare_refl. eapply IH; eassumption.
  - rewrite Exy. apply N.compare_lt_iff in Lyz. rewrite Lyz. reflexivity.
  - rewrite <- Eyz. apply N.compare_lt_iff in Lxy. rewrite Lxy. reflexivity.
  - assert (L : (N_of_ascii x < N_of_ascii z)%N) by lia.
    apply N.compare_lt_iff in L. rewrite L. reflexivity.
Qed.

Lemma ltb_trans (a b c : string) :
  strings.lt a b = true -> strings.lt b c = true -> strings.lt a c = true.
Proof.
  unfold strings.lt, String.ltb. intros H1 H2.
  destruct (String.compare a b) eqn:E1; try discriminate.
  destruct (String.compare b c) eqn:E2; try discriminate.
  rewrite (compare_lt_trans _ _ _ E1 E2). reflexivity.
Qed.

Lemma ltb_total (a b : string) :
  strings.lt a b = true \/ a = b \/ strings.lt b a = true.
Proof.
  unfold strings.lt, String.ltb.
  rewrite (String.compare_antisym b a).
  destruct (String.compare a b) eqn:E; simpl; auto.
  right. left. apply String.compare_eq_iff. exact E.
Qed.

Lemma ltb_negtrans (a b c : string) :
  strings.lt a c = true -> strings.lt a b = true \/ strings.lt b c = true.
Proof.
  intros H. destruct (ltb_total a b) as [L|[E|G]].
  - left. exact L.
  - right. subst. exact H.
  - right. eapply ltb_trans; eassumption.
Qed.

(** ** The comparison of serveDirectory is a strict weak order *)

Lemma less_strict_weak_order (w : World) : strict_weak_order (less w).
Proof.
  unfold strict_weak_order, less. repeat split.
  - intros a. rewrite Bool.eqb_reflx. simpl. apply ltb_irrefl.
  - intros a b c.
    destruct (IsDir a), (IsDir b), (IsDir c); simpl; try discriminate; auto;
      apply ltb_trans.
  - intros a b c.
    destruct (IsDir a), (IsDir b), (IsDir c); simpl; try discriminate; auto;
      apply ltb_negtrans.
Qed.

(** ** Insertion sort meets the contract of sort.Slice *)

Section InsertionSort.
Variable A : Type.
Variable lt : A -> A -> bool.

Lemma insert_left_perm (x : A) (l : list A) :
  Permutation (x :: l) (sort.insert_left lt x l).
Proof.
  induction l as [|y l IH]; simpl; [apply Permutation_refl|].
  destruct (lt x y); [|apply Permutation_refl].
  eapply Permutation_trans; [apply perm_swap|]. apply perm_skip. exact IH.
Qed.

Lemma fold_insert_perm (l acc : list A) :
  Permutation (rev l ++ acc)%list
    (fold_left (fun sorted x => sort.insert_left lt x sorted) l acc).
Proof.
  revert acc. induction l as [|x l IH]; intros acc; simpl; [apply Permutation_refl|].
  eapply Permutation_trans; [|apply IH].
  rewrite <- app_assoc. simpl. apply Permutation_app_head. apply insert_left_perm.
Qed.

Lemma insertionSort_perm (l : list A) : Permutation l (sort.insertionSort lt l).
Proof.
  unfold sort.insertionSort.
  eapply Permutation_trans; [|apply Permutation_rev].
  eapply Permutation_trans; [|apply fold_insert_perm].
  rewrite app_nil_r. apply Permutation_rev.
Qed.

Hypothesis lt_swo : strict_weak_order lt.

Lemma insert_left_placed (x : A) (l : list A) :
  placed lt l -> placed lt (sort.insert_left lt x l).
Proof.
  destruct lt_swo as (Hirr & Htr & Hneg).
  unfold placed. induction l as [|y l IH]; intros Hl; simpl.
  - constructor; constructor.
  - apply StronglySorted_inv in Hl. destruct Hl as [Hl Hy].
    destruct (lt x y) eqn:Exy.
    + constructor; [apply IH; exact Hl|].
      eapply Permutation_Forall; [apply insert_left_perm|].
      constructor; [|exact Hy].
      destruct (lt y x) eqn:Eyx; [|reflexivity].
      pose proof (Htr _ _ _ Exy Eyx) as T. rewrite Hirr in T. discriminate.
    + constructor; [constructor; assumption|].
      constructor; [exact Exy|].
      rewrite Forall_forall in Hy |- *. intros b Hb.
      destruct (lt x b) eqn:Exb; [|reflexivity].
      destruct (Hneg _ y _ Exb) as [H|H]; [congruence|].
      rewrite (Hy b Hb) in H. discriminate.
Qed.

Lemma fold_insert_placed (l acc : list A) :
  placed lt acc ->
  placed lt (fold_left (fun sorted x => sort.insert_left lt x sorted) l acc).
Proof.
  revert acc. induction l as [|x l IH]; intros acc Hacc; simpl; [exact Hacc|].
  apply IH. apply insert_left_placed. exact Hacc.
Qed.

Lemma placed_rev (l : list A) : placed lt l -> sorted_by lt (rev l).
Proof.
  unfold placed, sorted_by. induction l as [|a l IH]; intros Hl; simpl.
  - constructor.
  - apply StronglySorted_inv in Hl. destruct Hl as [Hl Ha].
    specialize (IH Hl).
    assert (Hr : Forall (fun b => lt a b = false) (rev l)).
    { eapply Permutation_Forall; [apply Permutation_rev|]. exact Ha. }
    clear Hl Ha. induction (rev l) as [|b m IHm]; simpl.
    + constructor; constructor.
    + apply StronglySorted_inv in IH. destruct IH as [Hm Hb].
      inversion Hr; subst.
      constructor; [apply IHm; assumption|].
      apply Forall_app. split; [exact Hb|]. constructor; [assumption|constructor].
Qed.

Lemma insertionSort_sorted (l : list A) : sorted_by lt (sort.insertionSort lt l).
Proof.
  unfold sort.insertionSort. apply placed_rev. apply fold_insert_placed. constructor.
Qed.
End InsertionSort.

Lemma insertionSort_contract (A : Type) : sort_contract (@sort.insertionSort A).
Proof.
  intros lt l. split; [apply insertionSort_perm|].
  intros H. apply insertionSort_sorted. exact H.
Qed.

(** ** The directory listing *)

Lemma entry_record_not_hidden (w : World) (urlPath : string) (entry : DirEntry)
  (f : FileInfo) :
  entry_record w urlPath entry = Some f ->
  strings.HasPrefix (Name f) "." = false /\ Info entry = Ok
    {| st_Name := Name f; st_Size := Size f; st_ModTime := ModTime f; st_IsDir := IsDir f |}.
Proof.
  unfold entry_record. destruct (Info entry) as [info|e]; [|discriminate].
  destruct (strings.HasPrefix (st_Name info) ".") eqn:Hh; [discriminate|].
  intros H. inversion H; subst; clear H. simpl. split; [exact Hh|].
  destruct info; reflexivity.
Qed.

Lemma collect_In (w : World) (urlPath : string) (entries : list DirEntry)
  (f : FileInfo) :
  In f (collect w urlPath entries) <->
  exists entry, In entry entries /\ entry_record w urlPath entry = Some f.
Proof.
  induction entries as [|e es IH]; simpl.
  - split; [intros []|intros (x & [] & _)].
  - destruct (entry_record w urlPath e) as [g|] eqn:Eg; simpl; rewrite IH.
    + split.
      * intros [H|(x & Hx & Hr)]; [subst; exists e; auto|exists x; auto].
      * intros (x & [Hx|Hx] & Hr); [subst; left; congruence|right; exists x; auto].
    + split.
      * intros (x & Hx & Hr). exists x; auto.
      * intros (x & [Hx|Hx] & Hr); [subst; congruence|exists x; auto].
Qed.

Lemma collect_perm (w : World) (urlPath : string) (e1 e2 : list DirEntry) :
  Permutation e1 e2 -> Permutation (collect w urlPath e1) (collect w urlPath e2).
Proof.
  induction 1 as [|x l l' _ IH|x y l|l l' l'' _ IH1 _ IH2]; simpl.
  - constructor.
  - destruct (entry_record w urlPath x); [apply perm_skip|]; exact IH.
  - destruct (entry_record w urlPath x), (entry_record w urlPath y);
      try apply Permutation_refl. apply perm_swap.
  - eapply Permutation_trans; eassumption.
Qed.

(** C4.  Whatever [sort.Slice] does within its contract, no record of a
    listing has a name that begins with a dot; so an entry with such a
    name, file or directory, has no record in the listing. *)
Theorem C4_hidden_never_listed (w : World) (urlPath : string)
  (entries : list DirEntry) :
  sort_contract (sort_Slice w) ->
  (forall f, In f (listing w urlPath entries) -> strings.HasPrefix (Name f) "." = false) /\
  (forall entry info, In entry entries -> Info entry = Ok info ->
     strings.HasPrefix (st_Name info) "." = true ->
     forall f, In f (listing w urlPath entries) -> Name f <> st_Name info).
Proof.
  intros Hsort.
  assert (H : forall f, In f (listing w urlPath entries) ->
                        strings.HasPrefix (Name f) "." = false).
  { intros f Hf. unfold listing in Hf.
    apply (Permutation_in f (Permutation_sym (proj1 (Hsort _ _)))) in Hf.
    apply collect_In in Hf. destruct Hf as (entry & _ & Hr).
    apply entry_record_not_hidden in Hr. apply Hr. }
  split; [exact H|].
  intros entry info _ _ Hhid f Hf E. apply H in Hf. congruence.
Qed.

Lemma C4_witness :
  let entries := [file_entry "a.txt" 3; file_entry ".env" 7; dir_entry ".git";
                  dir_entry "sub"] in
  Forall (fun f => Name f <> ".env" /\ Name f <> ".git") (listing world0 "/" entries).
Proof.
  intros entries. apply Forall_forall. intros f Hf.
  destruct (@C4_hidden_never_listed world0 "/" entries
              (@insertionSort_contract FileInfo)) as [_ H].
  split.
  - apply (H (file_entry ".env" 7) _ (or_intror (or_introl eq_refl)) eq_refl eq_refl f Hf).
  - apply (H (dir_entry ".git") _ (or_intror (or_intror (or_introl eq_refl)))
             eq_refl eq_refl f Hf).
Defined.

Lemma StronglySorted_split (A : Type) (R : A -> A -> Prop) (pre : list A) (x : A)
  (post : list A) :
  StronglySorted R (pre ++ x :: post)%list -> Forall (R x) post.
Proof.
  induction pre as [|a pre IH]; simpl; intros H; apply StronglySorted_inv in H.
  - apply H.
  - apply IH. apply H.
Qed.

(** C5.  Whatever [sort.Slice] does within its contract, of two records of
    a listing the earlier one is a directory whenever the later one is,
    and when both are of the same kind the lowered name of the later one
    is not less than that of the earlier one. *)
Theorem C5_listing_order (w : World) (urlPath : string) (entries : list DirEntry)
  (pre : list FileInfo) (f : FileInfo) (mid : list FileInfo) (g : FileInfo)
  (post : list FileInfo) :
  sort_contract (sort_Slice w) ->
  listing w urlPath entries = (pre ++ f :: mid ++ g :: post)%list ->
  (IsDir g = true -> IsDir f = true) /\
  (IsDir f = IsDir g -> strings.lt (lowerName w g) (lowerName w f) = false).
Proof.
  intros Hsort Hl.
  pose proof (proj2 (Hsort (less w) (collect w urlPath entries))
                (less_strict_weak_order w)) as Hs.
  fold (listing w urlPath entries) in Hs. rewrite Hl in Hs.
  apply StronglySorted_split in Hs.
  rewrite Forall_forall in Hs.
  assert (Hgf : less w g f = false).
  { apply Hs. apply in_or_app. right. left. reflexivity. }
  unfold less in Hgf. unfold lowerName.
  destruct (IsDir g), (IsDir f); simpl in Hgf; split; intros; try congruence.
Qed.

Lemma C5_witness :
  let entries := [file_entry "a.txt" 3; file_entry "Z.mp4" 9; file_entry ".hidden" 1;
                  dir_entry "sub"] in
  map Name (listing world0 "/" entries) = ["sub"; "a.txt"; "Z.mp4"] /\
  strings.lt "z.mp4" "a.txt" = false.
Proof.
  intros entries. split; [reflexivity|].
  refine (proj2 (@C5_listing_order world0 "/" entries [_] _ [] _ []
                   (@insertionSort_contract FileInfo) eq_refl) eq_refl).
Defined.

(** ** Ties *)

Lemma sorted_perm_unique (A : Type) (lt : A -> A -> bool) (l1 l2 : list A) :
  (forall a b, In a l1 -> In b l1 -> lt a b = false -> lt b a = false -> a = b) ->
  Permutation l1 l2 -> sorted_by lt l1 -> sorted_by lt l2 -> l1 = l2.
Proof.
  unfold sorted_by. revert l2.
  induction l1 as [|x l1 IH]; intros l2 Hanti Hp H1 H2.
  - apply Permutation_nil in Hp. subst. reflexivity.
  - destruct l2 as [|y l2].
    + apply Permutation_sym, Permutation_nil in Hp. discriminate.
    + apply StronglySorted_inv in H1. destruct H1 as [H1 Hx].
      apply StronglySorted_inv in H2. destruct H2 as [H2 Hy].
      rewrite Forall_forall in Hx, Hy.
      assert (Exy : x = y).
      { assert (Hxin : In x (y :: l2)) by (eapply Permutation_in; [exact Hp|left; reflexivity]).
        assert (Hyin : In y (x :: l1))
          by (eapply Permutation_in; [apply Permutation_sym; exact Hp|left; reflexivity]).
        destruct Hxin as [E|Hxin]; [congruence|].
        destruct Hyin as [E|Hyin]; [congruence|].
        apply Hanti; [left; reflexivity|right; exact Hyin|apply Hy; exact Hxin
                     |apply Hx; exact Hyin]. }
      subst y. f_equal. apply IH; try assumption.
      * intros a b Ha Hb. apply Hanti; right; assumption.
      * eapply Permutation_cons_inv. exact Hp.
Qed.

Lemma less_tie (w : World) (a b : FileInfo) :
  less w a b = false -> less w b a = false ->
  IsDir a = IsDir b /\ lowerName w a = lowerName w b.
Proof.
  unfold less, lowerName. destruct (IsDir a), (IsDir b); simpl; try discriminate;
    intros H1 H2; (split; [reflexivity|]);
    destruct (ltb_total (strings.ToLower (unicodeLower w) (Name a))
                        (strings.ToLower (unicodeLower w) (Name b))) as [L|[E|G]];
    congruence.
Qed.

(** Taken by itself, without the order that [os.ReadDir] gives, the sort of
    [serveDirectory] fixes the listing when no two different records of
    the same kind have names that are equal once lowered: whatever
    [sort.Slice] does within its contract, two permutations of the entries
    give the same listing. *)
Theorem listing_order_independent_without_ties (w : World) (urlPath : string)
  (e1 e2 : list DirEntry) :
  sort_contract (sort_Slice w) ->
  Permutation e1 e2 ->
  tie_free w (collect w urlPath e1) ->
  listing w urlPath e1 = listing w urlPath e2.
Proof.
  intros Hsort Hp Hfree. unfold listing.
  destruct (Hsort (less w) (collect w urlPath e1)) as [P1 S1].
  destruct (Hsort (less w) (collect w urlPath e2)) as [P2 S2].
  apply sorted_perm_unique with (lt := less w).
  - intros a b Ha Hb Hab Hba.
    destruct (less_tie _ _ _ Hab Hba) as [Hd Hn].
    apply Hfree; try assumption;
      eapply Permutation_in; try (apply Permutation_sym; exact P1); assumption.
  - eapply Permutation_trans; [apply Permutation_sym; exact P1|].
    eapply Permutation_trans; [apply collect_perm; exact Hp|exact P2].
  - apply S1. apply less_strict_weak_order.
  - apply S2. apply less_strict_weak_order.
Qed.

Lemma listing_order_independent_witness :
  listing world0 "/" [file_entry "b.txt" 1; dir_entry "sub"; file_entry "A.txt" 2]
  = listing world0 "/" [file_entry "A.txt" 2; file_entry "b.txt" 1; dir_entry "sub"].
Proof.
  apply listing_order_independent_without_ties.
  - apply insertionSort_contract.
  - apply Permutation_sym. apply (Permutation_cons_app [_; _] [] _). apply Permutation_refl.
  - intros a b Ha Hb Hd Hn. simpl in Ha, Hb.
    destruct Ha as [<-|[<-|[<-|[]]]]; destruct Hb as [<-|[<-|[<-|[]]]];
      first [reflexivity | discriminate Hd | discriminate Hn].
Defined.

(** The hypothesis on ties cannot be dropped there.  [A.txt] and [a.txt]
    are two files whose names are equal once lowered, so neither is less
    than the other; given in the order [a.txt], [A.txt], in which
    [os.ReadDir] never returns them, insertion sort, which is what
    [sort.Slice] runs on so short a slice, leaves them in that order. *)
Lemma ties_follow_input_order :
  ~ (forall w : World, sort_contract (sort_Slice w) ->
       forall (urlPath : string) (e1 e2 : list DirEntry),
         Permutation e1 e2 -> listing w urlPath e1 = listing w urlPath e2).
Proof.
  intros H.
  specialize (H world0 (@insertionSort_contract FileInfo) "/"
                [file_entry "A.txt" 1; file_entry "a.txt" 2]
                [file_entry "a.txt" 2; file_entry "A.txt" 1]
                (perm_swap _ _ _)).
  vm_compute in H. discriminate H.
Qed.

(** ** The order in which a directory is enumerated *)






(** ** Path elements *)

Lemma append_assoc (a b c : string) : (a ++ b) ++ c = a ++ (b ++ c).
Proof. induction a as [|x a IH]; simpl; [reflexivity|]. rewrite IH. reflexivity. Qed.

Lemma append_nil_r (a : string) : a ++ "" = a.
Proof. induction a as [|x a IH]; simpl; [reflexivity|]. rewrite IH. reflexivity. Qed.

Lemma split_not_nil (s : string) : path.split s <> [].
Proof.
  destruct s as [|c s]; simpl; [discriminate|].
  destruct (Ascii.eqb c "/"); [discriminate|].
  destruct (path.split s); discriminate.
Qed.

Lemma split_app_slash (a b : string) :
  path.split (a ++ String "/" b) = (path.split a ++ path.split b)%list.
Proof.
  induction a as [|c a IH]; simpl; [reflexivity|].
  destruct (Ascii.eqb c "/"); rewrite IH; [reflexivity|].
  destruct (path.split a) eqn:E; [exfalso; eapply split_not_nil; eassumption|].
  reflexivity.
Qed.

Lemma split_no_slash (s : string) :
  strings.ContainsByte "/" s = false -> path.split s = [s].
Proof.
  induction s as [|c s IH]; simpl; [reflexivity|].
  destruct (Ascii.eqb c "/"); simpl; [discriminate|].
  intros H. rewrite (IH H). reflexivity.
Qed.

Lemma split_elems_no_slash (s e : string) :
  In e (path.split s) -> strings.ContainsByte "/" e = false.
Proof.
  revert e. induction s as [|c s IH]; simpl; intros e.
  - intros [<-|[]]. reflexivity.
  - destruct (Ascii.eqb c "/") eqn:Ec.
    + intros [<-|H]; [reflexivity|apply IH; exact H].
    + destruct (path.split s) as [|h t] eqn:E; simpl.
      * intros [<-|[]]. simpl. rewrite Ec. reflexivity.
      * intros [<-|H]; [|apply IH; right; exact H].
        simpl. rewrite Ec. apply IH. left. reflexivity.
Qed.

Lemma split_concat (cs : list string) :
  cs <> [] ->
  (forall e, In e cs -> strings.ContainsByte "/" e = false) ->
  path.split (String.concat "/" cs) = cs.
Proof.
  induction cs as [|c cs IH]; [congruence|]. intros _ H.
  destruct cs as [|c' cs].
  - simpl. apply split_no_slash. apply H. left. reflexivity.
  - change (String.concat "/" (c :: c' :: cs))
      with (c ++ String "/" (String.concat "/" (c' :: cs))).
    rewrite split_app_slash, IH.
    + rewrite split_no_slash; [reflexivity|]. apply H. left. reflexivity.
    + discriminate.
    + intros e He. apply H. right. exact He.
Qed.

Lemma last_app_not_nil (A : Type) (l m : list A) (d : A) :
  m <> [] -> last (l ++ m)%list d = last m d.
Proof.
  intros Hm. induction l as [|x l IH]; [reflexivity|].
  simpl. destruct (l ++ m)%list eqn:E; [|exact IH].
  apply app_eq_nil in E. destruct E. congruence.
Qed.

Lemma last_elem_app_slash (a b : string) :
  filepath.last_elem (a ++ String "/" b) = filepath.last_elem b.
Proof.
  unfold filepath.last_elem. rewrite split_app_slash.
  apply last_app_not_nil. apply split_not_nil.
Qed.

Lemma split_snoc (s : string) :
  path.split s = (removelast (path.split s) ++ [filepath.last_elem s])%list.
Proof. apply app_removelast_last. apply split_not_nil. Qed.

Lemma clean_step_name (r : bool) (stack : list string) (n : string) :
  is_name n = true -> path.clean_step r stack n = n :: stack.
Proof.
  unfold is_name, path.clean_step.
  destruct (String.eqb n ""), (String.eqb n "."), (String.eqb n "..");
    simpl; try discriminate. reflexivity.
Qed.

Lemma clean_elems_snoc_name (r : bool) (xs : list string) (n : string) :
  is_name n = true ->
  path.clean_elems r (xs ++ [n]) = (path.clean_elems r xs ++ [n])%list.
Proof.
  intros Hn. unfold path.clean_elems.
  rewrite fold_left_app. simpl. rewrite clean_step_name by exact Hn.
  reflexivity.
Qed.

Lemma concat_snoc (cs : list string) (n : string) :
  String.concat "/" (cs ++ [n]) =
  match cs with [] => n | _ => String.concat "/" cs ++ String "/" n end.
Proof.
  induction cs as [|c cs IH]; [reflexivity|].
  destruct cs as [|c' cs]; [reflexivity|].
  change (String.concat "/" ((c :: c' :: cs) ++ [n]))
    with (c ++ String "/" (String.concat "/" ((c' :: cs) ++ [n]))).
  rewrite IH.
  change (String.concat "/" (c :: c' :: cs))
    with (c ++ String "/" (String.concat "/" (c' :: cs))).
  rewrite append_assoc. reflexivity.
Qed.

Lemma is_name_not_empty (n : string) : is_name n = true -> n <> "".
Proof. intros H E. subst. discriminate. Qed.

Lemma append_eq_empty (a b : string) : a ++ b = "" -> a = "" /\ b = "".
Proof. destruct a; simpl; [auto|discriminate]. Qed.

(** The last element of a path survives [Clean] when it is a real name. *)
Lemma Clean_last_elem (p : string) :
  is_name (filepath.last_elem p) = true ->
  filepath.last_elem (path.Clean p) = filepath.last_elem p /\ path.Clean p <> ".".
Proof.
  intros Hn. set (n := filepath.last_elem p) in *.
  assert (Hns : strings.ContainsByte "/" n = false).
  { apply (split_elems_no_slash p). unfold n, filepath.last_elem.
    destruct (exists_last (split_not_nil p)) as (l & a & E).
    rewrite E. rewrite last_last. apply in_or_app. right. left. reflexivity. }
  assert (Hform : exists pre, path.Clean p = pre ++ n /\
                    (pre = "" \/ exists q, pre = q ++ "/")).
  { unfold path.Clean.
    destruct (String.eqb p "") eqn:Ep.
    { apply String.eqb_eq in Ep. subst p. discriminate. }
    rewrite (split_snoc p). fold n. rewrite clean_elems_snoc_name by exact Hn.
    rewrite concat_snoc.
    set (cs := path.clean_elems (path.rooted p) (removelast (path.split p))).
    set (out := (if path.rooted p then "/" else "") ++ _).
    assert (Hout : exists pre, out = pre ++ n /\ (pre = "" \/ exists q, pre = q ++ "/")).
    { unfold out. destruct cs as [|c cs'].
      - destruct (path.rooted p).
        + exists "/". split; [reflexivity|]. right. exists "". reflexivity.
        + exists "". split; [reflexivity|]. left. reflexivity.
      - exists ((if path.rooted p then "/" else "")
                ++ String.concat "/" (c :: cs') ++ "/").
        split; [rewrite !append_assoc; reflexivity|].
        right. exists ((if path.rooted p then "/" else "") ++ String.concat "/" (c :: cs')).
        rewrite append_assoc. reflexivity. }
    destruct Hout as (pre & E & Hpre). rewrite E.
    destruct (String.eqb (pre ++ n) "") eqn:Ee.
    - apply String.eqb_eq in Ee. apply append_eq_empty in Ee.
      exfalso. apply (is_name_not_empty Hn). apply Ee.
    - exists pre. split; [reflexivity|exact Hpre]. }
  destruct Hform as (pre & E & [Hpre|(q & Hq)]).
  - subst pre. simpl in E. rewrite E. split.
    + unfold filepath.last_elem. rewrite (split_no_slash _ Hns). reflexivity.
    + intros Hd. rewrite Hd in Hn. discriminate.
  - subst pre. rewrite E. rewrite append_assoc. simpl. split.
    + rewrite last_elem_app_slash. unfold filepath.last_elem.
      rewrite (split_no_slash _ Hns). reflexivity.
    + intros Hd.
      assert (Hl : filepath.last_elem (q ++ String "/" n) = filepath.last_elem ".")
        by (rewrite Hd; reflexivity).
      rewrite last_elem_app_slash in Hl. unfold filepath.last_elem in Hl.
      rewrite (split_no_slash _ Hns) in Hl. simpl in Hl.
      rewrite Hl in Hn. discriminate.
Qed.

(** ** The plus sign *)

Lemma QueryUnescape_no_percent (s : string) :
  strings.ContainsByte "%" s = false -> url.QueryUnescape s = Ok (spaces s).
Proof.
  induction s as [|c s IH]; simpl; [reflexivity|].
  destruct (Ascii.eqb c "%") eqn:Ec; simpl; [discriminate|].
  intros H. rewrite (IH H).
  byte_cases c; try reflexivity. discriminate.
Qed.

(** Every ['+'] of a request path that decodes at all comes out as a
    space: escapes cannot straddle it, so the text before and the text
    after are decoded separately. *)
Lemma QueryUnescape_plus (a b d : string) :
  url.QueryUnescape (a ++ String "+" b) = Ok d ->
  exists da db, url.QueryUnescape a = Ok da /\ url.QueryUnescape b = Ok db /\
                d = da ++ String " " db.
Proof.
  assert (H : forall n a d, (String.length a <= n)%nat ->
            url.QueryUnescape (a ++ String "+" b) = Ok d ->
            exists da db, url.QueryUnescape a = Ok da /\ url.QueryUnescape b = Ok db /\
                          d = da ++ String " " db).
  { clear a d. induction n as [|n IH]; intros a d Hlen.
    - destruct a; simpl in Hlen; [|lia]. simpl.
      destruct (url.QueryUnescape b) as [t|e]; [|discriminate].
      intros E. inversion E. exists "", t. auto.
    - destruct a as [|c a].
      + simpl. destruct (url.QueryUnescape b) as [t|e]; [|discriminate].
        intros E. inversion E. exists "", t. auto.
      + simpl in Hlen.
        assert (Hplain :
          match url.QueryUnescape (a ++ String "+" b) with
          | Ok t => Ok (String (if Ascii.eqb c "+" then " "%char else c) t)
          | Err e => Err e end = Ok d ->
          match url.QueryUnescape a with
          | Ok t => Ok (String (if Ascii.eqb c "+" then " "%char else c) t)
          | Err e => Err e end = url.QueryUnescape (String c a) ->
          exists da db, url.QueryUnescape (String c a) = Ok da /\
                        url.QueryUnescape b = Ok db /\ d = da ++ String " " db).
        { destruct (url.QueryUnescape (a ++ String "+" b)) as [t|e] eqn:E; [|discriminate].
          intros Hd Hc. inversion Hd; subst d; clear Hd.
          destruct (IH a t ltac:(lia) E) as (da & db & Ha & Hb & Ht).
          rewrite Ha in Hc. rewrite <- Hc. subst t.
          eexists; exists db. split; [reflexivity|]. split; [exact Hb|reflexivity]. }
        byte_cases c;
          try (intros E; apply Hplain; [exact E|reflexivity]).
        destruct a as [|h [|l a']]; simpl.
        * destruct b; discriminate.
        * replace (url.ishex "+") with false by reflexivity.
          rewrite Bool.andb_false_r. discriminate.
        * destruct (url.ishex h && url.ishex l); [|discriminate].
          destruct (url.QueryUnescape (a' ++ String "+" b)) as [t|e] eqn:E; [|discriminate].
          intros Hd. inversion Hd; subst d; clear Hd.
          destruct (IH a' t ltac:(simpl in Hlen; lia) E) as (da & db & Ha & Hb & Ht).
          rewrite Ha. subst t.
          eexists; exists db. split; [reflexivity|]. split; [exact Hb|reflexivity]. }
  apply (H (String.length a)). lia.
Qed.

Lemma spaces_app (a b : string) : spaces (a ++ b) = spaces a ++ spaces b.
Proof.
  unfold spaces. induction a as [|c a IH]; simpl; [reflexivity|]. rewrite IH. reflexivity.
Qed.

Lemma spaces_no_slash (s : string) :
  strings.ContainsByte "/" (spaces s) = strings.ContainsByte "/" s.
Proof.
  unfold spaces. induction s as [|c s IH]; simpl; [reflexivity|]. rewrite IH.
  f_equal. byte_cases c; reflexivity.
Qed.

Lemma spaces_no_plus (s : string) : strings.ContainsByte "+" (spaces s) = false.
Proof.
  unfold spaces. induction s as [|c s IH]; simpl; [reflexivity|]. rewrite IH.
  byte_cases c; reflexivity.
Qed.

Lemma spaces_has_space (s : string) :
  strings.ContainsByte "+" s = true -> strings.ContainsByte " " (spaces s) = true.
Proof.
  unfold spaces. induction s as [|c s IH]; simpl; [discriminate|].
  destruct (Ascii.eqb c "+") eqn:Ec; simpl.
  - apply Ascii.eqb_eq in Ec. subst c. reflexivity.
  - intros H. rewrite (IH H). apply Bool.orb_true_r.
Qed.

Lemma contains_is_name (c : ascii) (s : string) :
  c <> "."%char -> strings.ContainsByte c s = true -> is_name s = true.
Proof.
  intros Hc H. unfold is_name.
  destruct (String.eqb s "") eqn:E1; [apply String.eqb_eq in E1; subst; discriminate|].
  assert (Hdot : Ascii.eqb "." c = false)
    by (apply Ascii.eqb_neq; congruence).
  destruct (String.eqb s ".") eqn:E2.
  { apply String.eqb_eq in E2. subst. cbn [strings.ContainsByte] in H. rewrite Hdot in H. discriminate. }
  destruct (String.eqb s "..") eqn:E3; [|reflexivity].
  apply String.eqb_eq in E3. subst. cbn [strings.ContainsByte] in H. rewrite Hdot in H. discriminate.
Qed.

Lemma has_space_is_name (s : string) :
  strings.ContainsByte " " s = true -> is_name s = true.
Proof. apply contains_is_name. discriminate. Qed.

Lemma has_plus_is_name (s : string) :
  strings.ContainsByte "+" s = true -> is_name s = true.
Proof. apply contains_is_name. discriminate. Qed.

Lemma Join_last_elem (a b : string) :
  is_name (filepath.last_elem b) = true ->
  filepath.last_elem (filepath.Join a b) = filepath.last_elem b.
Proof.
  intros Hn. unfold filepath.Join, filepath.Clean.
  destruct (String.eqb a ""); simpl.
  - destruct (String.eqb b "") eqn:Eb; simpl.
    + apply String.eqb_eq in Eb. subst b. discriminate.
    + apply Clean_last_elem. exact Hn.
  - assert (E : filepath.last_elem (a ++ String "/" b) = filepath.last_elem b)
      by apply last_elem_app_slash.
    rewrite <- E. apply Clean_last_elem. rewrite E. exact Hn.
Qed.

Lemma cleanPath_of_last_elem (d : string) :
  is_name (filepath.last_elem d) = true ->
  filepath.last_elem (cleanPath_of d) = filepath.last_elem d.
Proof.
  intros Hn. unfold cleanPath_of.
  destruct (Clean_last_elem d Hn) as [E Hd].
  destruct (String.eqb (path.Clean d) ".") eqn:Ed.
  - apply String.eqb_eq in Ed. contradiction.
  - exact E.
Qed.

Lemma fullPath_last_elem (root d : string) :
  is_name (filepath.last_elem d) = true ->
  filepath.last_elem (filepath.Join root (cleanPath_of d)) = filepath.last_elem d.
Proof.
  intros Hn. pose proof (cleanPath_of_last_elem d Hn) as E.
  rewrite Join_last_elem; rewrite E; [reflexivity|exact Hn].
Qed.

Lemma resolve_Resolved (w : World) (cfg : Config) (raw fullPath cleanPath : string) :
  resolve w cfg raw = Resolved fullPath cleanPath ->
  exists d, url.QueryUnescape raw = Ok d /\ cleanPath = cleanPath_of d /\
            fullPath = filepath.Join (Directory (Media cfg)) cleanPath.
Proof.
  unfold resolve.
  destruct (url.QueryUnescape raw) as [d|e]; [|discriminate].
  destruct (filepath.Abs (Getwd w) (Directory (Media cfg))) as [am|e]; [|discriminate].
  destruct (filepath.Abs (Getwd w) _) as [af|e]; [|discriminate].
  destruct (negb (strings.HasPrefix af am)); [discriminate|].
  intros E. inversion E; subst. exists d. auto.
Qed.

(** A request path without percent escapes whose last element contains a
    ['+'] does not lead to the file it names. *)
Lemma literal_plus_path (w : World) (cfg : Config) (dir name : string) :
  strings.ContainsByte "%" (dir ++ "/" ++ name) = false ->
  strings.ContainsByte "/" name = false ->
  strings.ContainsByte "+" name = true ->
  url.QueryUnescape (dir ++ "/" ++ name) = Ok (spaces dir ++ "/" ++ spaces name) /\
  forall fullPath cleanPath,
    resolve w cfg (dir ++ "/" ++ name) = Resolved fullPath cleanPath ->
    fullPath = filepath.Join (Directory (Media cfg))
                 (cleanPath_of (spaces dir ++ "/" ++ spaces name)) /\
    filepath.last_elem fullPath = spaces name /\
    strings.ContainsByte "+" (filepath.last_elem fullPath) = false /\
    filepath.last_elem
      (filepath.Join (Directory (Media cfg)) (cleanPath_of (dir ++ "/" ++ name))) = name /\
    fullPath <> filepath.Join (Directory (Media cfg)) (cleanPath_of (dir ++ "/" ++ name)).
Proof.
  intros Hpct Hslash Hplus.
  assert (Hdec : url.QueryUnescape (dir ++ "/" ++ name)
                 = Ok (spaces dir ++ "/" ++ spaces name)).
  { rewrite (QueryUnescape_no_percent _ Hpct). rewrite spaces_app. reflexivity. }
  split; [exact Hdec|].
  intros fullPath cleanPath Hres.
  apply resolve_Resolved in Hres. destruct Hres as (d & Hd & Hc & Hf).
  rewrite Hdec in Hd. inversion Hd; subst d; clear Hd. subst cleanPath.
  assert (Hl1 : filepath.last_elem (spaces dir ++ "/" ++ spaces name) = spaces name).
  { cbn [append]. rewrite last_elem_app_slash. unfold filepath.last_elem.
    rewrite split_no_slash; [reflexivity|]. rewrite spaces_no_slash. exact Hslash. }
  assert (Hl2 : filepath.last_elem (dir ++ "/" ++ name) = name).
  { cbn [append]. rewrite last_elem_app_slash. unfold filepath.last_elem.
    rewrite split_no_slash; [reflexivity|exact Hslash]. }
  assert (Hn1 : is_name (spaces name) = true)
    by (apply has_space_is_name, spaces_has_space; exact Hplus).
  assert (Hn2 : is_name name = true) by (apply has_plus_is_name; exact Hplus).
  assert (Hlf : filepath.last_elem fullPath = spaces name).
  { subst fullPath. cbn [append] in *. rewrite fullPath_last_elem; rewrite Hl1; [reflexivity|exact Hn1]. }
  assert (Hlt : filepath.last_elem
                  (filepath.Join (Directory (Media cfg))
                     (cleanPath_of (dir ++ "/" ++ name))) = name).
  { cbn [append] in *. rewrite fullPath_last_elem; rewrite Hl2; [reflexivity|exact Hn2]. }
  split; [exact Hf|]. split; [exact Hlf|].
  split; [rewrite Hlf; apply spaces_no_plus|].
  split; [exact Hlt|].
  intros E. rewrite E, Hlt in Hlf.
  pose proof (spaces_no_plus name) as Hno. rewrite <- Hlf in Hno. congruence.
Qed.

(** C10.  The request path is decoded with [url.QueryUnescape], so every
    ['+'] of a request path that decodes at all comes out as a space,
    before the path is cleaned and joined.  A request path without percent
    escapes is decoded by turning every ['+'] into a space and nothing
    else; so when the last element [name] of such a path contains a ['+'],
    the path that [handleRequest] stats is the request path with spaces
    for the plus signs, cleaned and joined with the media directory: its
    last element is [name] with spaces, which has no ['+'] left, and the
    path differs from the one the request names. *)
Theorem C10_plus_becomes_space (w : World) (cfg : Config) (dir name : string) :
  (forall a b d,
     url.QueryUnescape (a ++ String "+" b) = Ok d ->
     exists da db, url.QueryUnescape a = Ok da /\ url.QueryUnescape b = Ok db /\
                   d = da ++ String " " db) /\
  (strings.ContainsByte "%" (dir ++ "/" ++ name) = false ->
   strings.ContainsByte "/" name = false ->
   strings.ContainsByte "+" name = true ->
   url.QueryUnescape (dir ++ "/" ++ name) = Ok (spaces dir ++ "/" ++ spaces name) /\
   forall fullPath cleanPath,
     resolve w cfg (dir ++ "/" ++ name) = Resolved fullPath cleanPath ->
     fullPath = filepath.Join (Directory (Media cfg))
                  (cleanPath_of (spaces dir ++ "/" ++ spaces name)) /\
     filepath.last_elem fullPath = spaces name /\
     strings.ContainsByte "+" (filepath.last_elem fullPath) = false /\
     filepath.last_elem
       (filepath.Join (Directory (Media cfg)) (cleanPath_of (dir ++ "/" ++ name))) = name /\
     fullPath <> filepath.Join (Directory (Media cfg)) (cleanPath_of (dir ++ "/" ++ name))).
Proof.
  split.
  - intros a b d. apply QueryUnescape_plus.
  - apply literal_plus_path.
Qed.

Lemma C10_witness :
  resolve world0 (config_at "/data") "/music/a+b.mp3"
  = Resolved "/data/music/a b.mp3" "/music/a b.mp3" /\
  "/data/music/a b.mp3" <> "/data/music/a+b.mp3".
Proof.
  split; [reflexivity|].
  exact (proj2 (proj2 (proj2 (proj2
    (proj2 (proj2 (@C10_plus_becomes_space world0 (config_at "/data") "/music" "a+b.mp3")
              eq_refl eq_refl eq_refl)
       "/data/music/a b.mp3" "/music/a b.mp3" eq_refl))))).
Defined.

(** ** Cleaning, element by element *)

Lemma Clean_render (p : string) :
  path.Clean p =
  if String.eqb p "" then "."
  else let out := render (path.rooted p) (path.clean_elems (path.rooted p) (path.split p)) in
       if String.eqb out "" then "." else out.
Proof. reflexivity. Qed.

Lemma clean_elems_from (r : bool) (xs : list string) :
  path.clean_elems r xs = rev (clean_from r xs []).
Proof. reflexivity. Qed.

Lemma clean_from_app (r : bool) (xs ys stack : list string) :
  clean_from r (xs ++ ys) stack = clean_from r ys (clean_from r xs stack).
Proof. unfold clean_from. apply fold_left_app. Qed.

Lemma clean_step_cases (r : bool) (stack : list string) (c : string) :
  (c = "" /\ path.clean_step r stack c = stack) \/
  (c = "." /\ path.clean_step r stack c = stack) \/
  (c = ".." /\ path.clean_step r stack c =
     if path.can_backtrack stack then tl stack
     else if r then stack else ".." :: stack) \/
  (is_name c = true /\ path.clean_step r stack c = c :: stack).
Proof.
  unfold path.clean_step, is_name.
  destruct (String.eqb c "") eqn:E1; [apply String.eqb_eq in E1; auto|].
  destruct (String.eqb c ".") eqn:E2; [apply String.eqb_eq in E2; auto|].
  destruct (String.eqb c "..") eqn:E3; [apply String.eqb_eq in E3; auto|].
  right. right. right. auto.
Qed.

Lemma clean_step_ok (r : bool) (stack : list string) (c : string) :
  stack_ok r stack -> stack_ok r (path.clean_step r stack c).
Proof.
  intros Hs.
  destruct (clean_step_cases r stack c) as [[_ E]|[[_ E]|[[_ E]|[Hn E]]]]; rewrite E.
  - exact Hs.
  - exact Hs.
  - destruct (path.can_backtrack stack).
    + intros e He. apply Hs. destruct stack; [destruct He|right; exact He].
    + destruct r; [exact Hs|].
      intros e [<-|He]; [right; auto|apply Hs; exact He].
  - intros e [<-|He]; [left; exact Hn|apply Hs; exact He].
Qed.

Lemma clean_from_ok (r : bool) (xs stack : list string) :
  stack_ok r stack -> stack_ok r (clean_from r xs stack).
Proof.
  revert stack. induction xs as [|x xs IH]; intros stack Hs; [exact Hs|].
  apply IH. apply clean_step_ok. exact Hs.
Qed.

Lemma clean_step_In (r : bool) (stack : list string) (c e : string) :
  In e (path.clean_step r stack c) -> In e stack \/ e = c.
Proof.
  destruct (clean_step_cases r stack c) as [[_ E]|[[_ E]|[[Hc E]|[_ E]]]]; rewrite E; auto.
  - destruct (path.can_backtrack stack).
    + intros He. left. destruct stack; [destruct He|right; exact He].
    + destruct r; auto. intros [<-|He]; auto.
  - intros [<-|He]; auto.
Qed.

Lemma clean_from_In (r : bool) (xs stack : list string) (e : string) :
  In e (clean_from r xs stack) -> In e stack \/ In e xs.
Proof.
  revert stack. induction xs as [|x xs IH]; intros stack He; [left; exact He|].
  apply IH in He. destruct He as [He|He]; [|right; right; exact He].
  apply clean_step_In in He. destruct He as [He|He]; [left; exact He|].
  right. left. symmetry. exact He.
Qed.

(** Real names are written one after the other. *)
Lemma clean_from_names (r : bool) (cs stack : list string) :
  (forall e, In e cs -> is_name e = true) ->
  clean_from r cs stack = (rev cs ++ stack)%list.
Proof.
  revert stack. induction cs as [|c cs IH]; intros stack H; [reflexivity|].
  unfold clean_from in *. simpl. rewrite clean_step_name by (apply H; left; reflexivity).
  rewrite IH by (intros e He; apply H; right; exact He).
  rewrite <- app_assoc. reflexivity.
Qed.

Lemma clean_elems_app_names (r : bool) (pre cs : list string) :
  (forall e, In e cs -> is_name e = true) ->
  path.clean_elems r (pre ++ cs) = (path.clean_elems r pre ++ cs)%list.
Proof.
  intros H. rewrite !clean_elems_from, clean_from_app, clean_from_names by exact H.
  rewrite rev_app_distr, rev_involutive. reflexivity.
Qed.

(** Cleaning a relative path first and then cleaning it after another
    path gives the same elements as cleaning the whole at once. *)
Lemma clean_from_relative (r : bool) (ys stack : list string) :
  clean_from r (rev (clean_from false ys [])) stack = clean_from r ys stack.
Proof.
  revert stack. induction ys as [|c ys IH] using rev_ind; intros stack; [reflexivity|].
  rewrite (clean_from_app false), (clean_from_app r). rewrite <- IH.
  set (T := clean_from false ys []).
  assert (HT : stack_ok false T) by (apply clean_from_ok; intros e []).
  change (clean_from false [c] T) with (path.clean_step false T c).
  change (clean_from r [c] (clean_from r (rev T) stack))
    with (path.clean_step r (clean_from r (rev T) stack) c).
  destruct (clean_step_cases false T c) as [[Hc E]|[[Hc E]|[[Hc E]|[Hn E]]]]; rewrite E.
  - subst c. reflexivity.
  - subst c. reflexivity.
  - subst c. destruct T as [|n T'].
    + reflexivity.
    + simpl path.can_backtrack. destruct (String.eqb n "..") eqn:En; simpl negb; cbv iota.
      * simpl rev. rewrite (clean_from_app r). reflexivity.
      * simpl tl. simpl rev. rewrite (clean_from_app r).
        assert (Hname : is_name n = true).
        { destruct (HT n (or_introl eq_refl)) as [H|[H _]]; [exact H|].
          subst n. discriminate. }
        change (clean_from r [n] (clean_from r (rev T') stack))
          with (path.clean_step r (clean_from r (rev T') stack) n).
        rewrite (@clean_step_name r _ n Hname).
        unfold path.clean_step. simpl. rewrite En. reflexivity.
  - simpl rev. rewrite (clean_from_app r).
    change (clean_from r [c] (clean_from r (rev T) stack))
      with (path.clean_step r (clean_from r (rev T) stack) c).
    reflexivity.
Qed.

Lemma clean_elems_relative (r : bool) (pre ys : list string) :
  path.clean_elems r (pre ++ path.clean_elems false ys) = path.clean_elems r (pre ++ ys).
Proof.
  rewrite !clean_elems_from, !clean_from_app. f_equal. apply clean_from_relative.
Qed.

(** ** The written form of a cleaned path *)

Lemma rooted_app (a b : string) : a <> "" -> path.rooted (a ++ b) = path.rooted a.
Proof. destruct a as [|c a]; [congruence|]. reflexivity. Qed.

Lemma eqb_empty_false (s : string) : s <> "" -> String.eqb s "" = false.
Proof. intros H. apply String.eqb_neq. exact H. Qed.

Lemma rooted_not_empty (s : string) : path.rooted s = true -> s <> "".
Proof. destruct s; [discriminate|discriminate]. Qed.

Lemma Clean_rooted (p : string) :
  path.rooted p = true ->
  path.Clean p = render true (path.clean_elems true (path.split p)).
Proof.
  intros Hr. rewrite Clean_render.
  rewrite (eqb_empty_false (rooted_not_empty Hr)). rewrite Hr. reflexivity.
Qed.

Lemma Clean_app_slash (a b : string) :
  a <> "" ->
  path.Clean (a ++ String "/" b) =
  let out := render (path.rooted a)
               (path.clean_elems (path.rooted a) (path.split a ++ path.split b)) in
  if String.eqb out "" then "." else out.
Proof.
  intros Ha. rewrite Clean_render.
  rewrite rooted_app by exact Ha. rewrite split_app_slash.
  rewrite eqb_empty_false; [reflexivity|].
  destruct a; [congruence|discriminate].
Qed.

Lemma names_app (xs ys : list string) : names xs -> names ys -> names (xs ++ ys).
Proof.
  intros Hx Hy e He. apply in_app_or in He. destruct He; [apply Hx|apply Hy]; assumption.
Qed.

Lemma names_nil : names [].
Proof. intros e []. Qed.

(** The elements of a cleaned rooted path are real names without slashes. *)
Lemma clean_elems_rooted_names (p q : string) :
  names (path.clean_elems true (path.split p ++ path.split q)).
Proof.
  intros e He. rewrite clean_elems_from in He. apply in_rev in He. split.
  - assert (Hok : stack_ok true (clean_from true (path.split p ++ path.split q) []))
      by (apply clean_from_ok; intros x []).
    destruct (Hok e He) as [H|[_ H]]; [exact H|discriminate].
  - apply clean_from_In in He. destruct He as [[]|He].
    apply in_app_or in He. destruct He as [He|He];
      eapply split_elems_no_slash; eassumption.
Qed.

Lemma clean_elems_rooted_names1 (p : string) :
  names (path.clean_elems true (path.split p)).
Proof.
  intros e He. rewrite clean_elems_from in He. apply in_rev in He. split.
  - assert (Hok : stack_ok true (clean_from true (path.split p) []))
      by (apply clean_from_ok; intros x []).
    destruct (Hok e He) as [H|[_ H]]; [exact H|discriminate].
  - apply clean_from_In in He. destruct He as [[]|He].
    eapply split_elems_no_slash; eassumption.
Qed.

Lemma split_render_true (cs : list string) :
  names cs ->
  path.split (render true cs) = "" :: match cs with [] => [""] | _ => cs end.
Proof.
  intros H. unfold render.
  change ("/" ++ String.concat "/" cs) with ("" ++ String "/" (String.concat "/" cs)).
  rewrite split_app_slash. simpl. f_equal.
  destruct cs as [|c cs]; [reflexivity|].
  apply split_concat; [discriminate|]. intros e He. apply H. exact He.
Qed.

Lemma filter_names (cs : list string) :
  names cs -> filter (fun e => negb (String.eqb e "")) cs = cs.
Proof.
  intros H. induction cs as [|c cs IH]; [reflexivity|]. simpl.
  destruct (String.eqb c "") eqn:E.
  - apply String.eqb_eq in E. subst c.
    destruct (H "" (or_introl eq_refl)) as [Hn _]. discriminate.
  - simpl. f_equal. apply IH. intros e He. apply H. right. exact He.
Qed.

Lemma elements_render_true (cs : list string) :
  names cs -> elements (render true cs) = cs.
Proof.
  intros H. unfold elements. rewrite split_render_true by exact H.
  destruct cs as [|c cs]; [reflexivity|].
  transitivity (filter (fun e => negb (String.eqb e "")) (c :: cs)); [reflexivity|].
  apply filter_names. exact H.
Qed.

Lemma list_prefix_app (xs ys : list string) : list_prefix xs (xs ++ ys) = true.
Proof.
  induction xs as [|x xs IH]; [reflexivity|]. simpl. rewrite String.eqb_refl. exact IH.
Qed.

Lemma within_render (xs ys : list string) :
  names xs -> names ys -> within (render true xs) (render true (xs ++ ys)) = true.
Proof.
  intros Hx Hy. unfold within.
  rewrite !elements_render_true by (try apply names_app; assumption).
  apply list_prefix_app.
Qed.

(** Cleaning what follows a cleaned rooted path adds its elements. *)
Lemma clean_elems_split_render (r : bool) (pre cs : list string) :
  names cs ->
  path.clean_elems r (pre ++ path.split (render true cs))
  = (path.clean_elems r pre ++ cs)%list.
Proof.
  intros H. rewrite split_render_true by exact H.
  assert (Hskip : path.clean_elems r (pre ++ [""]) = path.clean_elems r pre).
  { rewrite !clean_elems_from, clean_from_app. reflexivity. }
  destruct cs as [|c cs].
  - change (pre ++ ["" ; ""])%list with (pre ++ ([""] ++ [""]))%list.
    rewrite app_assoc. rewrite !clean_elems_from, clean_from_app.
    change (clean_from r [""] ?s) with s.
    rewrite <- clean_elems_from, Hskip, app_nil_r. reflexivity.
  - change (pre ++ "" :: c :: cs)%list with (pre ++ ([""] ++ (c :: cs)))%list.
    rewrite app_assoc. rewrite clean_elems_app_names by (intros e He; apply H; exact He).
    rewrite Hskip. reflexivity.
Qed.

Lemma render_true_not_empty (cs : list string) : String.eqb (render true cs) "" = false.
Proof. reflexivity. Qed.

Lemma Clean_render_true (cs : list string) :
  names cs -> path.Clean (render true cs) = render true cs.
Proof.
  intros H. rewrite Clean_rooted by reflexivity.
  rewrite <- (app_nil_l (path.split (render true cs))).
  rewrite clean_elems_split_render by exact H. reflexivity.
Qed.

Lemma cleanPath_of_rooted (d : string) :
  path.rooted d = true ->
  cleanPath_of d = render true (path.clean_elems true (path.split d)).
Proof.
  intros Hr. unfold cleanPath_of. rewrite Clean_rooted by exact Hr.
  destruct (String.eqb (render true _) ".") eqn:E; [|reflexivity].
  apply String.eqb_eq in E. discriminate.
Qed.

Lemma QueryUnescape_rooted (raw d : string) :
  path.rooted raw = true -> url.QueryUnescape raw = Ok d -> path.rooted d = true.
Proof.
  destruct raw as [|c raw]; [discriminate|].
  byte_cases c; try discriminate.
  simpl. destruct (url.QueryUnescape raw); [|discriminate].
  intros _ E. inversion E. reflexivity.
Qed.

(** ** Joining with the media directory *)

Lemma Join_not_empty (a b : string) :
  a <> "" -> filepath.Join a b = path.Clean (a ++ String "/" b).
Proof.
  intros Ha. unfold filepath.Join. rewrite (eqb_empty_false Ha). reflexivity.
Qed.

Lemma Clean_app_rooted (a b : string) :
  path.rooted a = true ->
  path.Clean (a ++ String "/" b) =
  render true (path.clean_elems true (path.split a ++ path.split b)).
Proof.
  intros Hr. rewrite Clean_app_slash by (apply rooted_not_empty; exact Hr).
  rewrite Hr. reflexivity.
Qed.

Lemma plain_head_not_rooted (c : string) (s : string) :
  c <> "" -> strings.ContainsByte "/" c = false -> path.rooted (c ++ s) = false.
Proof.
  destruct c as [|x c]; [congruence|]. intros _. simpl.
  destruct x as [[] [] [] [] [] [] [] []]; try reflexivity. discriminate.
Qed.

(** A cleaned relative path, read again. *)
Lemma relative_form (L : list string) :
  plain L ->
  let F := if String.eqb (render false L) "" then "." else render false L in
  path.rooted F = false /\
  forall r pre, path.clean_elems r (pre ++ path.split F) = path.clean_elems r (pre ++ L).
Proof.
  intros HL. destruct L as [|c L].
  - simpl. split; [reflexivity|]. intros r pre.
    rewrite !clean_elems_from, clean_from_app, app_nil_r. reflexivity.
  - destruct (HL c (or_introl eq_refl)) as [Hc Hs].
    assert (Hform : exists s, render false (c :: L) = c ++ s).
    { unfold render. destruct L as [|c' L]; simpl.
      - exists "". rewrite append_nil_r. reflexivity.
      - eexists. reflexivity. }
    destruct Hform as [s Hform].
    assert (Hne : String.eqb (render false (c :: L)) "" = false).
    { apply eqb_empty_false. rewrite Hform. intros E. apply append_eq_empty in E.
      apply Hc. apply E. }
    cbv zeta. rewrite Hne. split.
    + rewrite Hform. apply plain_head_not_rooted; assumption.
    + intros r pre. change (render false (c :: L)) with (String.concat "/" (c :: L)).
      rewrite split_concat; [reflexivity|discriminate|].
      intros e He. apply HL. exact He.
Qed.

Lemma clean_elems_relative_plain (xs : list string) :
  (forall e, In e xs -> strings.ContainsByte "/" e = false) ->
  plain (path.clean_elems false xs).
Proof.
  intros Hx e He. rewrite clean_elems_from in He. apply in_rev in He. split.
  - assert (Hok : stack_ok false (clean_from false xs []))
      by (apply clean_from_ok; intros x []).
    destruct (Hok e He) as [H|[H _]]; [apply is_name_not_empty; exact H|].
    subst e. discriminate.
  - apply clean_from_In in He. destruct He as [[]|He]. apply Hx. exact He.
Qed.

(** The absolute forms that [handleRequest] compares, for a request path
    that is cleaned to the elements [cs]. *)
Lemma abs_forms (getwd : result string) (root : string) (cs : list string)
  (am af : string) :
  root <> "" -> names cs ->
  (forall cwd, getwd = Ok cwd -> path.rooted cwd = true) ->
  filepath.Abs getwd root = Ok am ->
  filepath.Abs getwd (filepath.Join root (render true cs)) = Ok af ->
  exists A, names A /\ am = render true A /\ af = render true (A ++ cs).
Proof.
  intros Hroot Hcs Hwd Ham Haf.
  rewrite Join_not_empty in Haf by exact Hroot.
  unfold filepath.Abs, filepath.IsAbs in *.
  destruct (path.rooted root) eqn:Hr.
  - (* an absolute media directory *)
    rewrite Clean_app_rooted in Haf by exact Hr.
    rewrite clean_elems_split_render in Haf by exact Hcs.
    change (path.rooted (render true ?l)) with true in Haf. cbv iota in Haf.
    exists (path.clean_elems true (path.split root)).
    assert (HA : names (path.clean_elems true (path.split root)))
      by apply clean_elems_rooted_names1.
    split; [exact HA|]. split.
    + inversion Ham. apply Clean_rooted. exact Hr.
    + inversion Haf. unfold filepath.Clean. apply Clean_render_true.
      apply names_app; assumption.
  - (* a media directory relative to the working directory *)
    destruct getwd as [cwd|e]; [|discriminate].
    pose proof (Hwd cwd eq_refl) as Hcwd.
    assert (Hcwd0 : cwd <> "") by (apply rooted_not_empty; exact Hcwd).
    rewrite Join_not_empty in Ham by exact Hcwd0.
    rewrite Clean_app_rooted in Ham by exact Hcwd.
    exists (path.clean_elems true (path.split cwd ++ path.split root)).
    split; [apply clean_elems_rooted_names|]. split; [inversion Ham; reflexivity|].
    rewrite Clean_app_slash in Haf by exact Hroot. rewrite Hr in Haf. cbv zeta in Haf.
    rewrite clean_elems_split_render in Haf by exact Hcs.
    set (L := (path.clean_elems false (path.split root) ++ cs)%list) in *.
    assert (HL : plain L).
    { intros e He. apply in_app_or in He. destruct He as [He|He].
      - apply (clean_elems_relative_plain (path.split root)); [|exact He].
        intros x Hx. eapply split_elems_no_slash. exact Hx.
      - destruct (Hcs e He) as [Hn Hs]. split; [apply is_name_not_empty; exact Hn|exact Hs]. }
    destruct (relative_form HL) as [HF Hsplit].
    set (F := if String.eqb (render false L) "" then "." else render false L) in *.
    rewrite HF in Haf.
    rewrite Join_not_empty in Haf by exact Hcwd0.
    rewrite Clean_app_rooted in Haf by exact Hcwd.
    rewrite Hsplit in Haf. unfold L in Haf.
    rewrite app_assoc in Haf.
    rewrite clean_elems_app_names in Haf by (intros e He; apply Hcs; exact He).
    rewrite clean_elems_relative in Haf.
    inversion Haf. reflexivity.
Qed.

(** ** Containment *)

Lemma resolve_Resolved_abs (w : World) (cfg : Config) (raw fullPath cleanPath : string) :
  resolve w cfg raw = Resolved fullPath cleanPath ->
  exists d am af,
    url.QueryUnescape raw = Ok d /\ cleanPath = cleanPath_of d /\
    fullPath = filepath.Join (Directory (Media cfg)) cleanPath /\
    filepath.Abs (Getwd w) (Directory (Media cfg)) = Ok am /\
    filepath.Abs (Getwd w) fullPath = Ok af /\
    strings.HasPrefix af am = true.
Proof.
  unfold resolve.
  destruct (url.QueryUnescape raw) as [d|e]; [|discriminate].
  destruct (filepath.Abs (Getwd w) (Directory (Media cfg))) as [am|e]; [|discriminate].
  destruct (filepath.Abs (Getwd w) _) as [af|e] eqn:Eaf; [|discriminate].
  destruct (strings.HasPrefix af am) eqn:Eh; [|discriminate].
  intros E. inversion E; subst. exists d, am, af. auto 10.
Qed.

(** The file-system calls of a request are all on the resolved path, and
    there are none unless the containment check has passed. *)
Lemma handleRequest_syscalls (w : World) (cfg : Config) (r : Request) (call : Syscall) :
  In call (syscalls (handleRequest w cfg r conn0)) ->
  exists fullPath cleanPath,
    resolve w cfg (URL_Path r) = Resolved fullPath cleanPath /\
    syscall_path call = fullPath.
Proof.
  rewrite handleRequest_resolve.
  destruct (resolve w cfg (URL_Path r)) as [ | | |fullPath cleanPath];
    try (intros []).
  intros H. exists fullPath, cleanPath. split; [reflexivity|].
  unfold dispatch in H.
  destruct (Stat w fullPath) as [fi|err].
  - destruct (st_IsDir fi).
    + unfold serveDirectory in H.
      destruct (ReadDir w fullPath); [destruct (snd (Execute w _))|];
        simpl in H; destruct H as [<-|[<-|[]]]; reflexivity.
    + unfold serveFile in H.
      destruct (Open w fullPath);
        simpl in H; destruct H as [<-|[<-|[]]]; reflexivity.
  - destruct (os_IsNotExist err); simpl in H; destruct H as [<-|[]]; reflexivity.
Qed.

(** For a request path that begins with a slash, as every path that
    [http.ServeMux] hands to the handler does, with a media directory that
    is not empty and a working directory that is an absolute path, every
    path that [handleRequest] passes to [os.Stat], [os.ReadDir] or
    [os.Open] lies within the media directory, element by element, once
    both are made absolute.  Requests that are answered 400, 403 or 500
    before [os.Stat] make none of these calls. *)
Theorem rooted_request_stays_within (w : World) (cfg : Config) (r : Request) :
  path.rooted (URL_Path r) = true ->
  Directory (Media cfg) <> "" ->
  (forall cwd, Getwd w = Ok cwd -> path.rooted cwd = true) ->
  stays_within w cfg r.
Proof.
  intros Hraw Hroot Hwd call Hcall.
  apply handleRequest_syscalls in Hcall.
  destruct Hcall as (fullPath & cleanPath & Hres & Hpath).
  apply resolve_Resolved_abs in Hres.
  destruct Hres as (d & am & af & Hd & Hc & Hf & Ham & Haf & _).
  pose proof (@QueryUnescape_rooted _ _ Hraw Hd) as Hdr.
  rewrite (@cleanPath_of_rooted d Hdr) in Hc. subst cleanPath fullPath.
  destruct (@abs_forms _ _ _ _ _ Hroot (clean_elems_rooted_names1 d) Hwd Ham Haf)
    as (A & HA & -> & ->).
  exists (render true A), (render true (A ++ path.clean_elems true (path.split d))).
  rewrite Hpath. repeat split; try assumption.
  apply within_render; [exact HA|apply clean_elems_rooted_names1].
Qed.

Lemma rooted_request_stays_within_witness :
  stays_within world_files (config_at "./media")
    {| Method := "GET"; URL_Path := "/%2e%2e/..%2F../etc//passwd" |} /\
  syscalls (handleRequest world_files (config_at "./media")
              {| Method := "GET"; URL_Path := "/%2e%2e/..%2F../etc//passwd" |} conn0)
  = [SysStat "media/etc/passwd"; SysOpen "media/etc/passwd"].
Proof.
  split; [|reflexivity].
  apply rooted_request_stays_within.
  - reflexivity.
  - discriminate.
  - intros cwd E. inversion E. reflexivity.
Defined.


(** ** Links of a listing *)

Lemma escape_unescape_byte (c : ascii) :
  c <> "+"%char ->
  if url.shouldEscape c
  then url.ishex (url.upperhex (N.shiftr (N_of_ascii c) 4)) = true /\
       url.ishex (url.upperhex (N.land (N_of_ascii c) 15)) = true /\
       url.unhex2 (url.upperhex (N.shiftr (N_of_ascii c) 4))
                  (url.upperhex (N.land (N_of_ascii c) 15)) = c
  else c <> "%"%char.
Proof.
  byte_cases c; intros H; vm_compute;
    first [ congruence | repeat split; congruence | discriminate ].
Qed.

(** What [url.PathEscape] writes is read back by [url.QueryUnescape],
    unless a ['+'] occurs: [PathEscape] leaves it as it is, and
    [QueryUnescape] takes it for a space. *)
Lemma QueryUnescape_PathEscape (p : string) :
  strings.ContainsByte "+" p = false ->
  url.QueryUnescape (url.PathEscape p) = Ok p.
Proof.
  induction p as [|c p IH]; [reflexivity|]. simpl strings.ContainsByte.
  destruct (Ascii.eqb c "+") eqn:Ec; [discriminate|]. simpl orb. intros Hp.
  apply Ascii.eqb_neq in Ec. pose proof (escape_unescape_byte Ec) as Hc.
  cbn [url.PathEscape]. destruct (url.shouldEscape c).
  - destruct Hc as (H1 & H2 & H3).
    cbn [url.QueryUnescape]. rewrite H1, H2, (IH Hp), H3. reflexivity.
  - assert (E : url.QueryUnescape (String c (url.PathEscape p)) =
                match url.QueryUnescape (url.PathEscape p) with
                | Ok t => Ok (String (if Ascii.eqb c "+" then " "%char else c) t)
                | Err e => Err e
                end).
    { byte_cases c; try reflexivity. congruence. }
    rewrite E, (IH Hp). apply Ascii.eqb_neq in Ec. rewrite Ec. reflexivity.
Qed.

(** C3 fails on the code.  In the listing of [/data] the record of
    [a+b.txt] links to [%2Fa+b.txt].  Decoded, the link is the path
    [/a+b.txt] of the record; resolving either of them leads to
    [/data/a b.txt], which does not exist, and not to the entry
    [/data/a+b.txt].  The link of [100%.txt] is decoded a second time by
    [handleRequest] and rejected as malformed. *)
Theorem C3_link_misses_entry :
  let cfg := config_at "/data" in
  map (fun f => (Name f, Path f, EncodedPath f))
      (listing world_plus "/" [file_entry "100%.txt" 5; file_entry "a+b.txt" 5])
  = [("100%.txt", "/100%.txt", "%2F100%25.txt"); ("a+b.txt", "/a+b.txt", "%2Fa+b.txt")] /\
  resolve world_plus cfg "/" = Resolved "/data" "/" /\
  filepath.Join "/data" "a+b.txt" = "/data/a+b.txt" /\
  resolve world_plus cfg "%2Fa+b.txt" = Resolved "/data/a b.txt" "/a b.txt" /\
  resolve world_plus cfg "/a+b.txt" = Resolved "/data/a b.txt" "/a b.txt" /\
  statusCode (handleRequest world_plus cfg {| Method := "GET"; URL_Path := "/a+b.txt" |} conn0)
  = Some StatusNotFound /\
  resolve world_plus cfg "%2F100%25.txt" = Resolved "/data/100%.txt" "/100%.txt" /\
  resolve world_plus cfg "/100%.txt" = MalformedPath.
Proof. repeat split; reflexivity. Qed.

(** ** Links that do lead back *)

Lemma Join_root_render (root : string) (cs : list string) :
  root <> "" -> names cs ->
  filepath.Join root (render true cs) =
  let out := render (path.rooted root)
               (path.clean_elems (path.rooted root) (path.split root) ++ cs) in
  if String.eqb out "" then "." else out.
Proof.
  intros Hroot Hcs. rewrite Join_not_empty by exact Hroot.
  rewrite Clean_app_slash by exact Hroot.
  rewrite clean_elems_split_render by exact Hcs. reflexivity.
Qed.



(** Joining the name of an entry to the request path of its directory. *)
Lemma path_Join_name (cs : list string) (n : string) :
  names cs -> is_name n = true -> strings.ContainsByte "/" n = false ->
  path.Join (render true cs) n = render true (cs ++ [n]).
Proof.
  intros Hcs Hn Hs. unfold path.Join.
  change (String.eqb (render true cs) "") with false. cbv iota.
  rewrite (eqb_empty_false (is_name_not_empty Hn)).
  change (render true cs ++ "/" ++ n) with (render true cs ++ String "/" n).
  rewrite Clean_app_rooted by reflexivity.
  rewrite (split_no_slash _ Hs).
  rewrite clean_elems_app_names by (intros e [<-|[]]; exact Hn).
  rewrite <- (app_nil_l (path.split _)).
  rewrite clean_elems_split_render by exact Hcs. reflexivity.
Qed.

Lemma prefix_app (a b : string) : String.prefix a (a ++ b) = true.
Proof.
  induction a as [|c a IH]; simpl; [destruct b; reflexivity|].
  destruct (ascii_dec c c); [exact IH|congruence].
Qed.

Lemma render_app_prefix (A cs : list string) :
  strings.HasPrefix (render true (A ++ cs)) (render true A) = true.
Proof.
  unfold strings.HasPrefix.
  assert (H : exists rest, render true (A ++ cs) = render true A ++ rest).
  { unfold render. induction A as [|a A IH].
    - exists (String.concat "/" cs). reflexivity.
    - destruct IH as [rest IH]. simpl in IH. inversion IH as [IH'].
      destruct A as [|a' A].
      + simpl. destruct cs as [|c cs].
        * exists "". rewrite append_nil_r. reflexivity.
        * exists ("/" ++ String.concat "/" (c :: cs)). reflexivity.
      + exists rest.
        change (String.concat "/" ((a :: a' :: A) ++ cs))
          with (a ++ String "/" (String.concat "/" ((a' :: A) ++ cs))).
        change (String.concat "/" (a :: a' :: A))
          with (a ++ String "/" (String.concat "/" (a' :: A))).
        rewrite IH'. simpl. rewrite !append_assoc. reflexivity. }
  destruct H as [rest ->]. apply prefix_app.
Qed.

Lemma Abs_Join_ok (getwd : result string) (root : string) (cs : list string) (am : string) :
  root <> "" -> names cs ->
  filepath.Abs getwd root = Ok am ->
  exists af, filepath.Abs getwd (filepath.Join root (render true cs)) = Ok af.
Proof.
  intros Hroot Hcs Ham. unfold filepath.Abs, filepath.IsAbs in *.
  destruct (path.rooted root) eqn:Hr.
  - rewrite (Join_root_render Hroot Hcs). rewrite Hr. cbv zeta.
    change (String.eqb (render true ?l) "") with false. cbv iota.
    change (path.rooted (render true ?l)) with true. cbv iota. eexists. reflexivity.
  - destruct getwd as [cwd|e]; [|discriminate].
    destruct (path.rooted (filepath.Join root (render true cs))); eexists; reflexivity.
Qed.

(* ===================================================================== *)
(** * Further properties of the handlers *)
(* ===================================================================== *)

(** ** The shape of a response *)

(** Whatever the request and the disk, status and body of the response of
    [handleRequest] have one of nine shapes.  Every error body is a fixed
    text, so neither the request path nor the text of a file-system error
    reaches the client; a listing that the template engine fails on is
    sent as far as it was written, under the status 200, with the error
    text after it; and the status is left to [http.ServeContent] exactly
    when a file is handed to it, with the request as it came. *)
Theorem handleRequest_shapes (w : World) (cfg : Config) (r : Request) :
  response_shape r (statusCode (handleRequest w cfg r conn0))
                   (body (handleRequest w cfg r conn0)).
Proof.
  rewrite handleRequest_resolve.
  destruct (resolve w cfg (URL_Path r)) as [ | | |fullPath cleanPath];
    try (simpl; constructor).
  unfold dispatch. destruct (Stat w fullPath) as [fi|err].
  - destruct (st_IsDir fi).
    + unfold serveDirectory. destruct (ReadDir w fullPath) as [entries|e].
      * destruct (snd (Execute w _)); simpl; constructor.
      * simpl. constructor.
    + unfold serveFile. destruct (Open w fullPath); simpl; constructor.
  - destruct (os_IsNotExist err); simpl; constructor.
Qed.

Lemma dispatch_status (w : World) (r : Request) (fullPath cleanPath : string) :
  statusCode (dispatch w r fullPath cleanPath conn0) <> Some StatusBadRequest /\
  statusCode (dispatch w r fullPath cleanPath conn0) <> Some StatusForbidden.
Proof.
  unfold dispatch. destruct (Stat w fullPath) as [fi|err].
  - destruct (st_IsDir fi).
    + unfold serveDirectory. destruct (ReadDir w fullPath) as [entries|e].
      * destruct (snd (Execute w _)); simpl; split; discriminate.
      * simpl. split; discriminate.
    + unfold serveFile. destruct (Open w fullPath); simpl; split; discriminate.
  - destruct (os_IsNotExist err); simpl; split; discriminate.
Qed.

(** [handleRequest] answers 400 exactly for the request paths in which a
    ['%'] is not followed by two hexadecimal digits; no state of the disk
    and no configuration produces or prevents that answer. *)
Theorem bad_request_iff_bad_escape (w : World) (cfg : Config) (r : Request) :
  statusCode (handleRequest w cfg r conn0) = Some StatusBadRequest
  <-> bad_escape (URL_Path r) = true.
Proof.
  rewrite <- QueryUnescape_fails_iff. rewrite handleRequest_resolve.
  unfold resolve.
  destruct (url.QueryUnescape (URL_Path r)) as [d|e].
  - split; [|intros [e He]; discriminate].
    intros H. exfalso.
    destruct (filepath.Abs (Getwd w) (Directory (Media cfg))) as [am|e]; [|discriminate].
    destruct (filepath.Abs (Getwd w) _) as [af|e]; [|discriminate].
    destruct (negb (strings.HasPrefix af am)); [discriminate|].
    exact (proj1 (dispatch_status w r _ _) H).
  - split; [intros _; eauto|reflexivity].
Qed.

(** ** The containment check, seen from the other side *)

Lemma abs_root_form (getwd : result string) (root am : string) :
  (forall cwd, getwd = Ok cwd -> path.rooted cwd = true) ->
  filepath.Abs getwd root = Ok am ->
  exists A, names A /\ am = render true A.
Proof.
  intros Hwd Ham. unfold filepath.Abs, filepath.IsAbs in Ham.
  destruct (path.rooted root) eqn:Hr.
  - exists (path.clean_elems true (path.split root)).
    split; [apply clean_elems_rooted_names1|].
    inversion Ham. apply Clean_rooted. exact Hr.
  - destruct getwd as [cwd|e]; [|discriminate].
    pose proof (Hwd cwd eq_refl) as Hcwd.
    rewrite Join_not_empty in Ham by (apply rooted_not_empty; exact Hcwd).
    rewrite Clean_app_rooted in Ham by exact Hcwd.
    exists (path.clean_elems true (path.split cwd ++ path.split root)).
    split; [apply clean_elems_rooted_names|]. inversion Ham. reflexivity.
Qed.

Lemma list_prefix_split (xs ys : list string) :
  list_prefix xs ys = true -> exists zs, ys = (xs ++ zs)%list.
Proof.
  revert ys. induction xs as [|x xs IH]; intros ys H.
  - exists ys. reflexivity.
  - destruct ys as [|y ys]; [discriminate|]. simpl in H.
    apply Bool.andb_true_iff in H. destruct H as [E H].
    apply String.eqb_eq in E. subst y.
    destruct (IH ys H) as [zs ->]. exists zs. reflexivity.
Qed.

Lemma within_has_prefix (getwd : result string) (root p am af : string) :
  (forall cwd, getwd = Ok cwd -> path.rooted cwd = true) ->
  filepath.Abs getwd root = Ok am ->
  filepath.Abs getwd p = Ok af ->
  within am af = true ->
  strings.HasPrefix af am = true.
Proof.
  intros Hwd Ham Haf Hin.
  destruct (abs_root_form _ Hwd Ham) as (A & HA & ->).
  destruct (abs_root_form _ Hwd Haf) as (B & HB & ->).
  unfold within in Hin. rewrite !elements_render_true in Hin by assumption.
  destruct (list_prefix_split _ _ Hin) as [zs ->].
  apply render_app_prefix.
Qed.

(** The prefix test on absolute paths never turns down a path that lies
    within the media directory: whenever the candidate is the directory or
    lies under it, element by element, the directory's absolute path is a
    string prefix of the candidate's. *)
Theorem prefix_check_complete (getwd : result string) (root p am af : string) :
  (forall cwd, getwd = Ok cwd -> path.rooted cwd = true) ->
  filepath.Abs getwd root = Ok am ->
  filepath.Abs getwd p = Ok af ->
  within am af = true ->
  strings.HasPrefix af am = true.
Proof. apply within_has_prefix. Qed.

Lemma prefix_check_complete_witness :
  strings.HasPrefix "/srv/media/films/a.mp4" "/srv/media" = true.
Proof.
  apply (@prefix_check_complete (Ok "/srv") "media" "media/films/./a.mp4"
           "/srv/media" "/srv/media/films/a.mp4").
  - intros cwd E. inversion E. reflexivity.
  - reflexivity.
  - reflexivity.
  - reflexivity.
Defined.

(** So a 403 is never a false alarm: when [handleRequest] answers
    Forbidden, the path it built does lie outside the media directory. *)
Theorem forbidden_is_outside (w : World) (cfg : Config) (raw : string) :
  (forall cwd, Getwd w = Ok cwd -> path.rooted cwd = true) ->
  resolve w cfg raw = OutsideRoot ->
  exists d am af,
    url.QueryUnescape raw = Ok d /\
    filepath.Abs (Getwd w) (Directory (Media cfg)) = Ok am /\
    filepath.Abs (Getwd w) (filepath.Join (Directory (Media cfg)) (cleanPath_of d)) = Ok af /\
    within am af = false.
Proof.
  intros Hwd. unfold resolve.
  destruct (url.QueryUnescape raw) as [d|e]; [|discriminate].
  destruct (filepath.Abs (Getwd w) (Directory (Media cfg))) as [am|e] eqn:Ham; [|discriminate].
  destruct (filepath.Abs (Getwd w)
              (filepath.Join (Directory (Media cfg)) (cleanPath_of d)))
    as [af|e] eqn:Haf; [|discriminate].
  destruct (strings.HasPrefix af am) eqn:Hp; [simpl; discriminate|].
  intros _. exists d, am, af.
  split; [reflexivity|]. split; [reflexivity|]. split; [exact Haf|].
  destruct (within am af) eqn:Hin; [|reflexivity].
  rewrite (within_has_prefix _ _ Hwd Ham Haf Hin) in Hp. discriminate.
Qed.

Lemma forbidden_is_outside_witness :
  exists d am af,
    url.QueryUnescape "../etc/passwd" = Ok d /\
    filepath.Abs (Getwd world0) "/data" = Ok am /\
    filepath.Abs (Getwd world0) (filepath.Join "/data" (cleanPath_of d)) = Ok af /\
    within am af = false.
Proof.
  apply (@forbidden_is_outside world0 (config_at "/data") "../etc/passwd").
  - intros cwd E. inversion E. reflexivity.
  - reflexivity.
Defined.

(** For a request path that begins with a slash the check always passes:
    [handleRequest] never answers 403 to such a request.  A path such as
    [/../../etc/passwd] is cleaned to [/etc/passwd] and looked up under
    the media directory. *)
Theorem rooted_request_never_forbidden (w : World) (cfg : Config) (r : Request) :
  path.rooted (URL_Path r) = true ->
  Directory (Media cfg) <> "" ->
  (forall cwd, Getwd w = Ok cwd -> path.rooted cwd = true) ->
  resolve w cfg (URL_Path r) <> OutsideRoot /\
  statusCode (handleRequest w cfg r conn0) <> Some StatusForbidden.
Proof.
  intros Hraw Hroot Hwd.
  assert (Hres : resolve w cfg (URL_Path r) <> OutsideRoot).
  { unfold resolve.
    destruct (url.QueryUnescape (URL_Path r)) as [d|e] eqn:Hd; [|discriminate].
    pose proof (@QueryUnescape_rooted _ _ Hraw Hd) as Hdr.
    rewrite (@cleanPath_of_rooted d Hdr).
    assert (Hcs : names (path.clean_elems true (path.split d)))
      by apply clean_elems_rooted_names1.
    destruct (filepath.Abs (Getwd w) (Directory (Media cfg))) as [am|e] eqn:Ham;
      [|discriminate].
    destruct (@Abs_Join_ok _ _ _ _ Hroot Hcs Ham) as [af Haf]. cbv zeta. rewrite Haf.
    destruct (@abs_forms _ _ _ _ _ Hroot Hcs Hwd Ham Haf) as (A & HA & -> & ->).
    rewrite render_app_prefix. discriminate. }
  split; [exact Hres|].
  rewrite handleRequest_resolve.
  destruct (resolve w cfg (URL_Path r)) as [ | | |fullPath cleanPath];
    try discriminate; [congruence|].
  exact (proj2 (dispatch_status w r _ _)).
Qed.

Lemma rooted_request_never_forbidden_witness :
  resolve world0 (config_at "/data") "/../../etc/passwd"
  = Resolved "/data/etc/passwd" "/etc/passwd" /\
  resolve world0 (config_at "/data") "/../../etc/passwd" <> OutsideRoot.
Proof.
  split; [reflexivity|].
  apply (@rooted_request_never_forbidden world0 (config_at "/data")
           {| Method := "GET"; URL_Path := "/../../etc/passwd" |}).
  - reflexivity.
  - discriminate.
  - intros cwd E. inversion E. reflexivity.
Defined.

(** [IsValidMediaPath] accepts every request path that begins with a
    slash, whatever [..] elements it contains: cleaning removes them
    before the path is joined with the media directory.  Its only other
    outcome for such a path is the error of [filepath.Abs]. *)
Theorem IsValidMediaPath_rooted (getwd : result string) (c : Config)
  (requestPath : string) (b : bool) :
  (forall cwd, getwd = Ok cwd -> path.rooted cwd = true) ->
  path.rooted requestPath = true ->
  IsValidMediaPath getwd c requestPath = Ok b ->
  b = true.
Proof.
  intros Hwd Hreq. unfold IsValidMediaPath, GetAbsMediaPath.
  destruct (filepath.Abs getwd (Directory (Media c))) as [am|e] eqn:Ham; [|discriminate].
  destruct (abs_root_form _ Hwd Ham) as (A & HA & ->).
  destruct (String.eqb (filepath.Clean requestPath) "." ||
            String.eqb (filepath.Clean requestPath) "/"); [intros E; inversion E; reflexivity|].
  unfold filepath.Clean. rewrite Clean_rooted by exact Hreq.
  assert (Hcs : names (path.clean_elems true (path.split requestPath)))
    by apply clean_elems_rooted_names1.
  rewrite Join_root_render by (try discriminate; exact Hcs).
  change (path.rooted (render true A)) with true. cbv zeta.
  change (String.eqb (render true ?l) "") with false. cbv iota.
  rewrite <- (app_nil_l (path.split (render true A))).
  rewrite clean_elems_split_render by exact HA. rewrite app_nil_l.
  unfold filepath.Abs, filepath.IsAbs.
  change (path.rooted (render true ?l)) with true. cbv iota.
  unfold filepath.Clean. rewrite Clean_render_true by (apply names_app; assumption).
  rewrite render_app_prefix. intros E. inversion E. reflexivity.
Qed.

Lemma IsValidMediaPath_rooted_witness :
  IsValidMediaPath (Ok "/srv") (config_at "./media") "/a/../../b" = Ok true.
Proof.
  pose proof (@IsValidMediaPath_rooted (Ok "/srv") (config_at "./media") "/a/../../b"
                (strings.HasPrefix "/srv/media/b" "/srv/media")) as H.
  change (Ok (strings.HasPrefix "/srv/media/b" "/srv/media") = Ok true).
  rewrite H; [reflexivity| |reflexivity|reflexivity].
  intros cwd E. inversion E. reflexivity.
Defined.

(** ** The records of a listing *)

(** Every entry whose metadata can be read and whose name is not hidden
    has a record in the listing that carries its name, size, time and
    kind; the record's path is the request path joined with the name and
    its link is that path escaped; a directory has no MIME type and a file
    always has one.  The listing has exactly one record per such entry. *)
Theorem listing_records (w : World) (urlPath : string) (entries : list DirEntry) :
  sort_contract (sort_Slice w) ->
  List.length (listing w urlPath entries) = List.length (filter visible entries) /\
  forall entry info,
    In entry entries -> Info entry = Ok info ->
    strings.HasPrefix (st_Name info) "." = false ->
    exists f, In f (listing w urlPath entries) /\
      Name f = st_Name info /\ Size f = st_Size info /\
      ModTime f = st_ModTime info /\ IsDir f = st_IsDir info /\
      Path f = path.Join urlPath (st_Name info) /\
      EncodedPath f = url.PathEscape (Path f) /\
      (MimeType f = "" <-> IsDir f = true).
Proof.
  intros Hsort. pose proof (proj1 (Hsort (less w) (collect w urlPath entries))) as Hp.
  fold (listing w urlPath entries) in Hp. split.
  - rewrite <- (Permutation_length Hp). clear Hp.
    induction entries as [|e es IH]; [reflexivity|].
    simpl. unfold visible at 1, entry_record.
    destruct (Info e) as [info|err]; [|exact IH].
    destruct (strings.HasPrefix (st_Name info) "."); simpl; [exact IH|].
    rewrite IH. reflexivity.
  - intros entry info Hin Hinfo Hvis.
    eexists. split.
    + apply (Permutation_in _ Hp). apply collect_In. exists entry. split; [exact Hin|].
      unfold entry_record. rewrite Hinfo, Hvis. reflexivity.
    + simpl. repeat split; try reflexivity.
      * destruct (st_IsDir info); [reflexivity|]. simpl.
        destruct (String.eqb (TypeByExtension w _) "") eqn:E; [discriminate|].
        intros H. rewrite H in E. discriminate.
      * intros H. rewrite H. reflexivity.
Qed.

Lemma listing_records_witness :
  List.length (listing world0 "/" [file_entry "a.txt" 3; file_entry ".env" 7;
                                   dir_entry "sub"]) = 2%nat.
Proof.
  exact (proj1 (@listing_records world0 "/" [file_entry "a.txt" 3; file_entry ".env" 7;
                                              dir_entry "sub"]
                  (@insertionSort_contract FileInfo))).
Defined.

(** ** What a link is made of *)

Lemma escape_byte_written (c : ascii) :
  if url.shouldEscape c
  then link_byte (url.upperhex (N.shiftr (N_of_ascii c) 4)) = true /\
       link_byte (url.upperhex (N.land (N_of_ascii c) 15)) = true /\
       Ascii.eqb (url.upperhex (N.shiftr (N_of_ascii c) 4)) "/" = false /\
       Ascii.eqb (url.upperhex (N.land (N_of_ascii c) 15)) "/" = false
  else link_byte c = true /\ Ascii.eqb c "/" = false.
Proof.
  byte_cases c; vm_compute; repeat split; reflexivity.
Qed.

Lemma PathEscape_bytes (p : string) :
  all_bytes link_byte (url.PathEscape p) = true /\
  strings.ContainsByte "/" (url.PathEscape p) = false.
Proof.
  induction p as [|c p [IH1 IH2]]; [split; reflexivity|].
  pose proof (escape_byte_written c) as Hc.
  cbn [url.PathEscape]. destruct (url.shouldEscape c).
  - destruct Hc as (H1 & H2 & H3 & H4). cbn [all_bytes strings.ContainsByte].
    rewrite H1, H2, H3, H4, IH1, IH2. split; reflexivity.
  - destruct Hc as [H1 H2]. cbn [all_bytes strings.ContainsByte].
    rewrite H1, H2, IH1, IH2. split; reflexivity.
Qed.

Lemma QueryUnescape_PathEscape_spaces (p : string) :
  url.QueryUnescape (url.PathEscape p) = Ok (spaces p).
Proof.
  induction p as [|c p IH]; [reflexivity|].
  cbn [url.PathEscape]. unfold spaces. cbn [strings.map_bytes]. fold (spaces p).
  destruct (Ascii.eqb c "+") eqn:Ec.
  - apply Ascii.eqb_eq in Ec. subst c.
    change (url.shouldEscape "+") with false. cbv iota.
    change (url.QueryUnescape (String "+" (url.PathEscape p)))
      with (match url.QueryUnescape (url.PathEscape p) with
            | Ok t => Ok (String " " t)
            | Err e => Err e
            end).
    rewrite IH. reflexivity.
  - apply Ascii.eqb_neq in Ec. pose proof (escape_unescape_byte Ec) as Hc.
    assert (Hp : plus_to_space c = c).
    { unfold plus_to_space. apply Ascii.eqb_neq in Ec. rewrite Ec. reflexivity. }
    rewrite Hp. destruct (url.shouldEscape c).
    + destruct Hc as (H1 & H2 & H3).
      cbn [url.QueryUnescape]. rewrite H1, H2, IH, H3. reflexivity.
    + assert (E : url.QueryUnescape (String c (url.PathEscape p)) =
                  match url.QueryUnescape (url.PathEscape p) with
                  | Ok t => Ok (String (if Ascii.eqb c "+" then " "%char else c) t)
                  | Err e => Err e
                  end).
      { byte_cases c; try reflexivity. congruence. }
      rewrite E, IH. apply Ascii.eqb_neq in Ec. rewrite Ec. reflexivity.
Qed.

Lemma entry_record_link (w : World) (urlPath : string) (entry : DirEntry) (f : FileInfo) :
  entry_record w urlPath entry = Some f -> EncodedPath f = url.PathEscape (Path f).
Proof.
  unfold entry_record. destruct (Info entry) as [info|e]; [|discriminate].
  destruct (strings.HasPrefix (st_Name info) "."); [discriminate|].
  intros H. inversion H. reflexivity.
Qed.

(** The link of a record is made of letters, digits, the marks [-_.~], the
    reserved bytes [$&+:=@] and percent escapes only; in particular it
    holds no slash, so it is a single path segment, whatever the name of
    the entry.  [url.QueryUnescape], the decoder of [handleRequest],
    accepts every such text and reads it as the path of the record with
    every ['+'] turned into a space. *)
Theorem link_bytes_and_decoding (w : World) (urlPath : string) (entry : DirEntry)
  (f : FileInfo) :
  entry_record w urlPath entry = Some f ->
  all_bytes link_byte (EncodedPath f) = true /\
  strings.ContainsByte "/" (EncodedPath f) = false /\
  url.QueryUnescape (EncodedPath f) = Ok (spaces (Path f)).
Proof.
  intros H. rewrite (entry_record_link _ _ _ H).
  destruct (PathEscape_bytes (Path f)) as [H1 H2].
  repeat split; try assumption. apply QueryUnescape_PathEscape_spaces.
Qed.

Lemma link_bytes_and_decoding_witness :
  url.QueryUnescape "%2Fsub%2Fa%20b+c%3F.mp4" = Ok "/sub/a b c?.mp4".
Proof.
  exact (proj2 (proj2 (@link_bytes_and_decoding world0 "/sub"
     (file_entry "a b+c?.mp4" 1)
     {| Name := "a b+c?.mp4"; Path := "/sub/a b+c?.mp4"; Size := 1; ModTime := 0;
        IsDir := false; MimeType := "application/octet-stream";
        EncodedPath := "%2Fsub%2Fa%20b+c%3F.mp4" |} eq_refl))).
Defined.

(** ** The parent link *)

Lemma Clean_not_empty (p : string) : path.Clean p <> "".
Proof.
  rewrite Clean_render. destruct (String.eqb p ""); [discriminate|].
  cbv zeta. destruct (String.eqb (render _ _) "") eqn:E; [discriminate|].
  apply String.eqb_neq. exact E.
Qed.

Lemma ContainsByte_app (c : ascii) (a b : string) :
  strings.ContainsByte c (a ++ b) = strings.ContainsByte c a || strings.ContainsByte c b.
Proof.
  induction a as [|x a IH]; [reflexivity|]. simpl. rewrite IH. apply Bool.orb_assoc.
Qed.

Lemma split_dir_app_slash (a n : string) :
  strings.ContainsByte "/" n = false ->
  path.split_dir (a ++ String "/" n) = a ++ "/".
Proof.
  intros Hn. induction a as [|c a IH].
  - simpl. destruct n as [|x n]; [reflexivity|].
    cbn [path.split_dir]. rewrite Hn. reflexivity.
  - cbn [append path.split_dir].
    assert (H : strings.ContainsByte "/" (String c (a ++ String "/" n)) = true).
    { cbn [strings.ContainsByte]. rewrite ContainsByte_app. simpl.
      rewrite Bool.orb_true_r. apply Bool.orb_true_r. }
    rewrite H, IH. reflexivity.
Qed.

Lemma render_snoc (cs : list string) (n : string) :
  render true (cs ++ [n]) =
  (match cs with [] => "" | _ => render true cs end) ++ String "/" n.
Proof.
  unfold render. rewrite concat_snoc. destruct cs as [|c cs]; reflexivity.
Qed.

Lemma Dir_render_snoc (cs : list string) (n : string) :
  names cs -> strings.ContainsByte "/" n = false ->
  path.Dir (render true (cs ++ [n])) = render true cs.
Proof.
  intros Hcs Hn. unfold path.Dir. rewrite render_snoc.
  rewrite split_dir_app_slash by exact Hn.
  destruct cs as [|c cs]; [reflexivity|].
  change (render true (c :: cs) ++ "/") with (render true (c :: cs) ++ String "/" "").
  rewrite Clean_app_rooted by reflexivity.
  change (path.split "") with [""].
  rewrite !clean_elems_from, clean_from_app.
  change (clean_from true [""] ?s) with s.
  rewrite <- clean_elems_from.
  rewrite <- (app_nil_l (path.split _)).
  rewrite clean_elems_split_render by exact Hcs. reflexivity.
Qed.

(** The parent link is absent exactly in the listing of the root.  In the
    listing of a sub-directory that was reached through a record of its
    parent's listing, the parent link is the request path of that parent:
    for a request path that begins with a slash, the parent of the cleaned
    path joined with an entry name is the cleaned path again. *)
Theorem parent_link (d n : string) :
  (forall urlPath, parentPath urlPath = "" <-> urlPath = "/") /\
  (path.rooted d = true -> is_name n = true -> strings.ContainsByte "/" n = false ->
   parentPath (path.Join (cleanPath_of d) n) = cleanPath_of d).
Proof.
  split.
  - intros urlPath. unfold parentPath.
    destruct (String.eqb urlPath "/") eqn:E; simpl.
    + apply String.eqb_eq in E. split; [intros _; exact E|reflexivity].
    + apply String.eqb_neq in E. split; [|intros H; contradiction].
      unfold path.Dir. destruct (String.eqb (path.Clean _) ".") eqn:Ed; [discriminate|].
      intros H. exfalso. exact (Clean_not_empty _ H).
  - intros Hd Hn Hs. rewrite (@cleanPath_of_rooted d Hd).
    set (cs := path.clean_elems true (path.split d)).
    assert (Hcs : names cs) by apply clean_elems_rooted_names1.
    rewrite path_Join_name by assumption. unfold parentPath.
    assert (Hne : String.eqb (render true (cs ++ [n])) "/" = false).
    { apply String.eqb_neq. rewrite render_snoc. intros E.
      destruct cs as [|c cs].
      - inversion E. apply (is_name_not_empty Hn). assumption.
      - unfold render in E. cbn [append] in E. inversion E as [E'].
        destruct (String.concat "/" (c :: cs)) eqn:Ec; [|destruct s; discriminate].
        destruct (Hcs c (or_introl eq_refl)) as [Hc _].
        destruct cs; simpl in Ec; [subst c; discriminate|].
        apply append_eq_empty in Ec. destruct Ec as [Ec _]. subst c. discriminate. }
    rewrite Hne. simpl negb. cbv iota.
    rewrite Dir_render_snoc by assumption.
    destruct (String.eqb (render true cs) ".") eqn:E; [|reflexivity].
    apply String.eqb_eq in E. discriminate.
Qed.

Lemma parent_link_witness :
  parentPath (path.Join (cleanPath_of "/films//2024/../") "old") = cleanPath_of "/films//2024/../".
Proof.
  exact (proj2 (parent_link "/films//2024/../" "old") eq_refl eq_refl eq_refl).
Defined.

(** ** Cleaning twice *)

Lemma Clean_idempotent (p : string) : path.Clean (path.Clean p) = path.Clean p.
Proof.
  destruct (String.eqb p "") eqn:Ep.
  { apply String.eqb_eq in Ep. subst p. reflexivity. }
  apply String.eqb_neq in Ep.
  destruct (path.rooted p) eqn:Hr.
  - rewrite (@Clean_rooted p Hr). apply Clean_render_true.
    apply clean_elems_rooted_names1.
  - assert (Hc : path.Clean p =
                 let L := path.clean_elems false (path.split p) in
                 if String.eqb (render false L) "" then "." else render false L).
    { rewrite Clean_render. rewrite (eqb_empty_false Ep), Hr. reflexivity. }
    rewrite Hc. cbv zeta.
    set (L := path.clean_elems false (path.split p)).
    assert (HL : plain L).
    { apply clean_elems_relative_plain. intros e He. eapply split_elems_no_slash. exact He. }
    destruct (relative_form HL) as [HF Hsplit].
    set (F := if String.eqb (render false L) "" then "." else render false L) in *.
    assert (HF0 : F <> "").
    { unfold F. destruct (String.eqb (render false L) "") eqn:E; [discriminate|].
      apply String.eqb_neq. exact E. }
    rewrite (Clean_render F). rewrite (eqb_empty_false HF0), HF. cbv zeta.
    assert (HLL : path.clean_elems false L = L).
    { pose proof (clean_elems_relative false [] (path.split p)) as H.
      cbn [app] in H. exact H. }
    rewrite <- (app_nil_l (path.split F)), Hsplit, app_nil_l, HLL. reflexivity.
Qed.

(** The cleaned request path is a fixed point of the cleaning that
    [handleRequest] applies: a path that has been cleaned once is left as
    it is when it comes back as a request path. *)
Theorem cleanPath_of_idempotent (d : string) :
  cleanPath_of (cleanPath_of d) = cleanPath_of d.
Proof.
  unfold cleanPath_of at 2 3.
  destruct (String.eqb (path.Clean d) ".") eqn:E; [reflexivity|].
  unfold cleanPath_of. rewrite Clean_idempotent, E. reflexivity.
Qed.

(** ** Requests that do resolve *)

Lemma spaces_without_plus (s : string) :
  strings.ContainsByte "+" s = false -> spaces s = s.
Proof.
  unfold spaces. induction s as [|c s IH]; [reflexivity|]. simpl.
  destruct (Ascii.eqb c "+") eqn:Ec; simpl; [discriminate|].
  intros H. rewrite (IH H). unfold plus_to_space. rewrite Ec. reflexivity.
Qed.

Lemma resolve_rooted (w : World) (cfg : Config) (raw d cwd : string) :
  path.rooted raw = true ->
  url.QueryUnescape raw = Ok d ->
  Directory (Media cfg) <> "" ->
  Getwd w = Ok cwd -> path.rooted cwd = true ->
  resolve w cfg raw =
  Resolved (filepath.Join (Directory (Media cfg)) (cleanPath_of d)) (cleanPath_of d).
Proof.
  intros Hraw Hd Hroot Hcwd Hcr.
  assert (Hwd : forall c, Getwd w = Ok c -> path.rooted c = true)
    by (intros c E; rewrite Hcwd in E; inversion E; subst; exact Hcr).
  assert (Ham : exists am, filepath.Abs (Getwd w) (Directory (Media cfg)) = Ok am).
  { unfold filepath.Abs. rewrite Hcwd. destruct (filepath.IsAbs _); eexists; reflexivity. }
  destruct Ham as [am Ham].
  pose proof (@QueryUnescape_rooted _ _ Hraw Hd) as Hdr.
  unfold resolve. rewrite Hd. cbv zeta. rewrite Ham.
  rewrite (@cleanPath_of_rooted d Hdr).
  assert (Hcs : names (path.clean_elems true (path.split d)))
    by apply clean_elems_rooted_names1.
  destruct (@Abs_Join_ok _ _ _ _ Hroot Hcs Ham) as [af Haf]. rewrite Haf.
  destruct (@abs_forms _ _ _ _ _ Hroot Hcs Hwd Ham Haf) as (A & HA & -> & ->).
  rewrite render_app_prefix. reflexivity.
Qed.

(** A request path that begins with a slash and decodes is always
    resolved, to the media directory joined with the cleaned path, as soon
    as the media directory is named and the working directory is known:
    neither 403 nor 500 can come out of the first half of
    [handleRequest]. *)
Theorem rooted_request_resolves (w : World) (cfg : Config) (raw d cwd : string) :
  path.rooted raw = true ->
  url.QueryUnescape raw = Ok d ->
  Directory (Media cfg) <> "" ->
  Getwd w = Ok cwd -> path.rooted cwd = true ->
  resolve w cfg raw =
  Resolved (filepath.Join (Directory (Media cfg)) (cleanPath_of d)) (cleanPath_of d).
Proof. apply resolve_rooted. Qed.

Lemma rooted_request_resolves_witness :
  resolve world0 (config_at "media") "/a%2F..%2Fb/c+d"
  = Resolved "media/b/c d" "/b/c d".
Proof.
  exact (@rooted_request_resolves world0 (config_at "media") "/a%2F..%2Fb/c+d"
           "/a/../b/c d" "/srv" eq_refl eq_refl ltac:(discriminate) eq_refl eq_refl).
Defined.

Lemma cleanPath_of_slash_name (n : string) :
  is_name n = true -> strings.ContainsByte "/" n = false ->
  cleanPath_of (String "/" n) = String "/" n.
Proof.
  intros Hn Hs. rewrite cleanPath_of_rooted by reflexivity.
  change (String "/" n) with ("" ++ String "/" n) at 1.
  rewrite split_app_slash, (split_no_slash _ Hs).
  change (path.split "" ++ [n])%list with ([""] ++ [n])%list.
  rewrite clean_elems_app_names by (intros e [<-|[]]; exact Hn).
  reflexivity.
Qed.

(** The filter on hidden names belongs to the listing only.  A file whose
    name begins with a dot gets no record, but a request for it by name is
    resolved and the file is opened and handed to [http.ServeContent] like
    any other. *)
Theorem hidden_file_is_served (w : World) (cfg : Config) (n cwd : string)
  (info fi : FileStat) :
  strings.HasPrefix n "." = true ->
  is_name n = true ->
  strings.ContainsByte "/" n = false ->
  strings.ContainsByte "%" n = false ->
  strings.ContainsByte "+" n = false ->
  Directory (Media cfg) <> "" ->
  Getwd w = Ok cwd -> path.rooted cwd = true ->
  st_Name info = n ->
  let p := filepath.Join (Directory (Media cfg)) (String "/" n) in
  let r := {| Method := "GET"; URL_Path := String "/" n |} in
  Stat w p = Ok fi -> st_IsDir fi = false -> Open w p = None ->
  entry_record w "/" {| Info := Ok info |} = None /\
  body (handleRequest w cfg r conn0) = [ServeContent r (Base p) (st_ModTime fi) p] /\
  syscalls (handleRequest w cfg r conn0) = [SysStat p; SysOpen p].
Proof.
  intros Hh Hn Hs Hpc Hpl Hroot Hcwd Hcr Hname p r Hstat Hfile Hopen.
  split.
  - unfold entry_record. simpl. rewrite Hname, Hh. reflexivity.
  - assert (Hd : url.QueryUnescape (String "/" n) = Ok (String "/" n)).
    { rewrite QueryUnescape_no_percent by (simpl; exact Hpc).
      rewrite spaces_without_plus by (simpl; exact Hpl). reflexivity. }
    assert (Hres : resolve w cfg (URL_Path r) = Resolved p (String "/" n)).
    { unfold r. cbn [URL_Path].
      rewrite (@resolve_rooted w cfg (String "/" n) (String "/" n) cwd
                 eq_refl Hd Hroot Hcwd Hcr).
      rewrite cleanPath_of_slash_name by assumption. reflexivity. }
    rewrite handleRequest_resolve, Hres. unfold dispatch.
    rewrite Hstat, Hfile. unfold serveFile. rewrite Hopen. split; reflexivity.
Qed.

Lemma hidden_file_is_served_witness :
  syscalls (handleRequest world_files (config_at "/data")
              {| Method := "GET"; URL_Path := "/.env" |} conn0)
  = [SysStat "/data/.env"; SysOpen "/data/.env"].
Proof.
  exact (proj2 (proj2 (@hidden_file_is_served world_files (config_at "/data") ".env" "/srv"
     {| st_Name := ".env"; st_Size := 1; st_ModTime := 0; st_IsDir := false |}
     {| st_Name := ".env"; st_Size := 1; st_ModTime := 0; st_IsDir := false |}
     eq_refl eq_refl eq_refl eq_refl eq_refl ltac:(discriminate) eq_refl eq_refl eq_refl
     eq_refl eq_refl eq_refl))).
Defined.

(** ** Headers *)

Lemma header_get_set_other (k k' v : string) (h : list (string * string)) :
  k <> k' -> header_get k (set_key k' v h) = header_get k h.
Proof.
  intros Hk. induction h as [|[a b] h IH]; simpl.
  - apply String.eqb_neq in Hk. rewrite Hk. reflexivity.
  - destruct (String.eqb k' a) eqn:E; simpl.
    + apply String.eqb_eq in E. subst a.
      apply String.eqb_neq in Hk. rewrite Hk. reflexivity.
    + rewrite IH. reflexivity.
Qed.

Lemma header_get_set_same (k v : string) (h : list (string * string)) :
  header_get k (set_key k v h) = Some v.
Proof.
  induction h as [|[a b] h IH]; simpl.
  - rewrite String.eqb_refl. reflexivity.
  - destruct (String.eqb k a) eqn:E; simpl.
    + rewrite String.eqb_refl. reflexivity.
    + rewrite E. exact IH.
Qed.

Lemma Ext_of_joined (dir n : string) :
  is_name n = true -> strings.ContainsByte "/" n = false ->
  filepath.Ext (filepath.Join dir n) = filepath.Ext n.
Proof.
  intros Hn Hs.
  assert (Hl : filepath.last_elem n = n).
  { unfold filepath.last_elem. rewrite (split_no_slash _ Hs). reflexivity. }
  unfold filepath.Ext. rewrite Join_last_elem by (rewrite Hl; exact Hn).
  reflexivity.
Qed.

(** The MIME type that the listing shows for a file is the [Content-Type]
    that the file is served with: both are derived from the extension of
    the name, with the same fallback, although one looks at the name and
    the other at the full path on disk. *)
Theorem listed_type_is_served_type (w : World) (r : Request) (urlPath dir : string)
  (entry : DirEntry) (f : FileInfo) (fi : FileStat) :
  entry_record w urlPath entry = Some f ->
  IsDir f = false ->
  is_name (Name f) = true ->
  strings.ContainsByte "/" (Name f) = false ->
  Open w (filepath.Join dir (Name f)) = None ->
  header_get "Content-Type"
    (header (serveFile w r (filepath.Join dir (Name f)) fi conn0)) = Some (MimeType f) /\
  MimeType f <> "".
Proof.
  intros Hrec Hfile Hn Hs Hopen.
  unfold serveFile. rewrite Hopen. cbn [header Header_Set sys conn0].
  rewrite !header_get_set_other by discriminate.
  rewrite header_get_set_same. rewrite Ext_of_joined by assumption.
  unfold entry_record in Hrec. destruct (Info entry) as [info|e]; [|discriminate].
  destruct (strings.HasPrefix (st_Name info) "."); [discriminate|].
  inversion Hrec; subst f; clear Hrec. cbn [Name MimeType IsDir] in *.
  rewrite Hfile. cbn [negb].
  split; [reflexivity|].
  destruct (String.eqb (TypeByExtension w _) "") eqn:E; [discriminate|].
  apply String.eqb_neq. exact E.
Qed.

Lemma listed_type_is_served_type_witness :
  header_get "Content-Type"
    (header (serveFile world_files {| Method := "GET"; URL_Path := "/a.mp4" |}
               (filepath.Join "/data" "a.mp4")
               {| st_Name := "a.mp4"; st_Size := 1; st_ModTime := 0; st_IsDir := false |}
               conn0))
  = Some "application/octet-stream".
Proof.
  exact (proj1 (@listed_type_is_served_type world_files
     {| Method := "GET"; URL_Path := "/a.mp4" |} "/" "/data" (file_entry "a.mp4" 1)
     {| Name := "a.mp4"; Path := "/a.mp4"; Size := 1; ModTime := 0; IsDir := false;
        MimeType := "application/octet-stream"; EncodedPath := "%2Fa.mp4" |}
     {| st_Name := "a.mp4"; st_Size := 1; st_ModTime := 0; st_IsDir := false |}
     eq_refl eq_refl eq_refl eq_refl eq_refl)).
Defined.

Lemma handleRequest_keeps_header (w : World) (cfg : Config) (r : Request) (c : Conn)
  (k : string) :
  ~ In k ["Content-Type"; "X-Content-Type-Options"; "Accept-Ranges"; "Cache-Control";
          "Content-Length"; "Content-Disposition"] ->
  header_get k (header (handleRequest w cfg r c)) = header_get k (header c).
Proof.
  intros Hk.
  assert (H1 : k <> "Content-Type") by (intros E; apply Hk; simpl; auto).
  assert (H2 : k <> "X-Content-Type-Options") by (intros E; apply Hk; simpl; auto).
  assert (H3 : k <> "Accept-Ranges") by (intros E; apply Hk; simpl; auto).
  assert (H4 : k <> "Cache-Control") by (intros E; apply Hk; simpl; auto).
  assert (H5 : k <> "Content-Length") by (intros E; apply Hk; simpl; auto 6).
  assert (H6 : k <> "Content-Disposition") by (intros E; apply Hk; simpl; auto 7).
  assert (Herr : forall msg code c0,
            header_get k (header (http_Error msg code c0)) = header_get k (header c0)).
  { intros. unfold http_Error. cbn [header Write WriteHeader Header_Set].
    rewrite !header_get_set_other by assumption. reflexivity. }
  rewrite handleRequest_resolve.
  destruct (resolve w cfg (URL_Path r)) as [ | | |fullPath cleanPath];
    try apply Herr.
  unfold dispatch. destruct (Stat w fullPath) as [fi|err].
  - destruct (st_IsDir fi).
    + unfold serveDirectory. destruct (ReadDir w fullPath) as [entries|e].
      * destruct (snd (Execute w _)); [rewrite Herr|];
          cbn [header Write Printf Header_Set sys];
          rewrite !header_get_set_other by assumption; reflexivity.
      * rewrite Herr. reflexivity.
    + unfold serveFile. destruct (Open w fullPath).
      * rewrite Herr. reflexivity.
      * cbn [header Header_Set sys].
        rewrite !header_get_set_other by assumption. reflexivity.
  - destruct (os_IsNotExist err); unfold http_NotFound; rewrite Herr; reflexivity.
Qed.

(** Every response that leaves through the CORS middleware carries the
    three CORS headers with their fixed values, whether the browse handler
    answers with a listing, a file or an error: [handleRequest] and
    [http.Error] set other headers and never remove or overwrite these. *)
Theorem cors_headers_on_every_response (w : World) (cfg : Config) (r : Request) :
  let out := corsMiddleware (handleRequest w cfg) r conn0 in
  header_get "Access-Control-Allow-Origin" (header out) = Some "*" /\
  header_get "Access-Control-Allow-Methods" (header out) = Some "GET, HEAD, OPTIONS" /\
  header_get "Access-Control-Allow-Headers" (header out) = Some "Content-Type, Range".
Proof.
  unfold corsMiddleware. destruct (String.eqb (Method r) "OPTIONS").
  - repeat split; reflexivity.
  - cbv zeta.
    repeat split; rewrite handleRequest_keeps_header;
      try reflexivity; intros H; simpl in H;
      repeat (destruct H as [H|H]; [discriminate H|]); exact H.
Qed.

(** ** Icons and classes *)

(** The two classifications of a record, which the source spells out
    twice, never disagree: a record has the folder icon exactly when its
    class is [directory], and likewise for video, audio, image and the
    rest. *)
Theorem icon_and_class_agree (w : World) (f : FileInfo) :
  (GetFileIcon w f = "📁" <-> GetFileClass w f = "directory") /\
  (GetFileIcon w f = "🎬" <-> GetFileClass w f = "video-file") /\
  (GetFileIcon w f = "🎵" <-> GetFileClass w f = "audio-file") /\
  (GetFileIcon w f = "🖼️" <-> GetFileClass w f = "image-file") /\
  (GetFileIcon w f = "📄" <-> GetFileClass w f = "").
Proof.
  unfold GetFileIcon, GetFileClass.
  destruct (IsDir f).
  - repeat split; intros H; first [reflexivity | discriminate H].
  - cbv zeta.
    set (ext := strings.ToLower (unicodeLower w) (filepath.Ext (Name f))).
    destruct (strings.HasPrefix (MimeType f) "video/" || _ || _ || _ || _ || _ || _ || _).
    { repeat split; intros H; first [reflexivity | discriminate H]. }
    destruct (strings.HasPrefix (MimeType f) "audio/" || _ || _ || _ || _ || _ || _).
    { repeat split; intros H; first [reflexivity | discriminate H]. }
    destruct (strings.HasPrefix (MimeType f) "image/" || _ || _ || _ || _ || _ || _);
      repeat split; intros H; first [reflexivity | discriminate H].
Qed.

(** A record that belongs to a listing is a directory exactly when its
    class is [directory]: a file never gets that class, whatever its name
    and MIME type. *)
Lemma class_directory_iff (w : World) (f : FileInfo) :
  GetFileClass w f = "directory" <-> IsDir f = true.
Proof.
  unfold GetFileClass. destruct (IsDir f); [split; reflexivity|]. cbv zeta.
  destruct (strings.HasPrefix (MimeType f) "video/" || _ || _ || _ || _ || _ || _ || _).
  { split; discriminate. }
  destruct (strings.HasPrefix (MimeType f) "audio/" || _ || _ || _ || _ || _ || _).
  { split; discriminate. }
  destruct (strings.HasPrefix (MimeType f) "image/" || _ || _ || _ || _ || _ || _);
    split; discriminate.
Qed.

(** ** Configuration *)

Lemma Validate_iff (stat : string -> result FileStat) (c : Config) :
  Validate stat c = None <->
  (1 <= Port (Server c) <= 65535)%Z /\
  Host (Server c) <> "" /\
  Directory (Media c) <> "" /\
  (forall err, stat (Directory (Media c)) = Err err -> os_IsNotExist err = true).
Proof.
  unfold Validate.
  destruct ((Port (Server c) <? 1)%Z || (Port (Server c) >? 65535)%Z) eqn:Ep.
  { split; [discriminate|]. intros [Hp _]. exfalso.
    apply Bool.orb_true_iff in Ep. destruct Ep as [E|E].
    - apply Z.ltb_lt in E. lia.
    - apply Z.gtb_lt in E. lia. }
  apply Bool.orb_false_iff in Ep. destruct Ep as [E1 E2].
  apply Z.ltb_ge in E1.
  assert (E2' : (Port (Server c) <= 65535)%Z).
  { destruct (Z.gtb_spec (Port (Server c)) 65535); [discriminate|assumption]. }
  destruct (String.eqb (Host (Server c)) "") eqn:Eh.
  { apply String.eqb_eq in Eh. split; [discriminate|]. intros (_ & H & _). contradiction. }
  apply String.eqb_neq in Eh.
  destruct (String.eqb (Directory (Media c)) "") eqn:Ed.
  { apply String.eqb_eq in Ed. split; [discriminate|]. intros (_ & _ & H & _). contradiction. }
  apply String.eqb_neq in Ed.
  destruct (stat (Directory (Media c))) as [fi|err].
  - split; [|reflexivity]. intros _. repeat split; try assumption. discriminate.
  - destruct (os_IsNotExist err) eqn:Ene.
    + split; [|reflexivity]. intros _. repeat split; try assumption.
      intros e E. inversion E; subst. exact Ene.
    + split; [discriminate|]. intros (_ & _ & _ & H).
      rewrite (H err eq_refl) in Ene. discriminate.
Qed.

Lemma LoadConfig_iff (readFile : result string)
  (unmarshal : string -> result Config) (stat : string -> result FileStat) (c : Config) :
  LoadConfig readFile unmarshal stat = Ok c <->
  exists data parsed,
    readFile = Ok data /\ unmarshal data = Ok parsed /\ c = withDefaults parsed /\
    (Port (Server parsed) = 0 \/ 1 <= Port (Server parsed) <= 65535)%Z /\
    (forall err, stat (Directory (Media (withDefaults parsed))) = Err err ->
                 os_IsNotExist err = true).
Proof.
  unfold LoadConfig. split.
  - destruct readFile as [data|e]; [|discriminate].
    destruct (unmarshal data) as [parsed|e] eqn:Hu; [|discriminate].
    cbv zeta. destruct (Validate stat (withDefaults parsed)) eqn:Hv; [discriminate|].
    intros E. inversion E; subst c; clear E.
    apply Validate_iff in Hv. destruct Hv as (Hp & _ & _ & Hs).
    exists data, parsed. repeat split; try assumption; try reflexivity.
    simpl in Hp. destruct (Port (Server parsed) =? 0)%Z eqn:E0.
    + left. apply Z.eqb_eq. exact E0.
    + right. exact Hp.
  - intros (data & parsed & -> & Hu & -> & Hp & Hs). rewrite Hu. cbv zeta.
    assert (Hv : Validate stat (withDefaults parsed) = None).
    { apply Validate_iff. repeat split; try exact Hs.
      - simpl. destruct (Port (Server parsed) =? 0)%Z eqn:E0; [lia|].
        apply Z.eqb_neq in E0. lia.
      - simpl. destruct (Port (Server parsed) =? 0)%Z eqn:E0; [lia|].
        apply Z.eqb_neq in E0. lia.
      - simpl. destruct (String.eqb (Host (Server parsed)) "") eqn:E; [discriminate|].
        apply String.eqb_neq. exact E.
      - simpl. destruct (String.eqb (Directory (Media parsed)) "") eqn:E; [discriminate|].
        apply String.eqb_neq. exact E. }
    rewrite Hv. reflexivity.
Qed.

(** [Validate] accepts a configuration exactly when the port lies between
    1 and 65535, host and media directory are not empty, and [os.Stat] of
    the media directory either succeeds or fails because the directory
    does not exist yet.  It does not ask that the path be a directory. *)
Theorem Validate_accepts_iff (stat : string -> result FileStat) (c : Config) :
  Validate stat c = None <->
  (1 <= Port (Server c) <= 65535)%Z /\
  Host (Server c) <> "" /\
  Directory (Media c) <> "" /\
  (forall err, stat (Directory (Media c)) = Err err -> os_IsNotExist err = true).
Proof. apply Validate_iff. Qed.

(** [LoadConfig] succeeds exactly when the file can be read and parsed,
    the port is 0 (then 8080 is used) or lies between 1 and 65535, and the
    media directory, ["./media"] unless the file names one, can be
    stat'ed or does not exist; the result is the parsed configuration
    with the defaults filled in.  An empty host or directory in the file
    is never an error. *)
Theorem LoadConfig_succeeds_iff (readFile : result string)
  (unmarshal : string -> result Config) (stat : string -> result FileStat) (c : Config) :
  LoadConfig readFile unmarshal stat = Ok c <->
  exists data parsed,
    readFile = Ok data /\ unmarshal data = Ok parsed /\ c = withDefaults parsed /\
    (Port (Server parsed) = 0 \/ 1 <= Port (Server parsed) <= 65535)%Z /\
    (forall err, stat (Directory (Media (withDefaults parsed))) = Err err ->
                 os_IsNotExist err = true).
Proof. apply LoadConfig_iff. Qed.

(** A configuration file that sets nothing loads as the configuration that
    [CreateDefaultConfig] writes, provided [./media] can be stat'ed or is
    missing; and loading what [CreateDefaultConfig] wrote gives the same
    configuration back. *)
Theorem empty_file_loads_default (unmarshal : string -> result Config)
  (stat : string -> result FileStat) (data : string) (parsed : Config) :
  unmarshal data = Ok parsed ->
  parsed = {| Server := {| Port := 0; Host := "" |}; Media := {| Directory := "" |} |}
  \/ parsed = defaultConfig ->
  (forall err, stat "./media" = Err err -> os_IsNotExist err = true) ->
  LoadConfig (Ok data) unmarshal stat = Ok defaultConfig.
Proof.
  intros Hu Hp Hs. apply LoadConfig_iff.
  exists data, parsed. split; [reflexivity|]. split; [exact Hu|].
  destruct Hp as [-> | ->]; repeat split; try exact Hs; simpl; lia.
Qed.

Lemma empty_file_loads_default_witness :
  LoadConfig (Ok "") (fun _ => Ok {| Server := {| Port := 0; Host := "" |};
                                      Media := {| Directory := "" |} |})
             (Stat world0) = Ok defaultConfig.
Proof.
  apply (@empty_file_loads_default _ (Stat world0) ""
           {| Server := {| Port := 0; Host := "" |}; Media := {| Directory := "" |} |}
           eq_refl (or_introl eq_refl)).
  intros err E. inversion E. reflexivity.
Defined.

(** ** Upper and lower case in names *)

Lemma lowerByte_keeps (c : ascii) :
  Ascii.eqb (strings.lowerByte c) "/" = Ascii.eqb c "/" /\
  Ascii.eqb (strings.lowerByte c) "." = Ascii.eqb c ".".
Proof. byte_cases c; split; reflexivity. Qed.

Lemma split_lowered (s : string) :
  path.split (strings.map_bytes strings.lowerByte s)
  = map (strings.map_bytes strings.lowerByte) (path.split s).
Proof.
  induction s as [|c s IH]; [reflexivity|].
  cbn [strings.map_bytes path.split]. rewrite (proj1 (lowerByte_keeps c)), IH.
  destruct (Ascii.eqb c "/"); [reflexivity|].
  destruct (path.split s); reflexivity.
Qed.

Lemma last_of_map (A B : Type) (g : A -> B) (l : list A) (d : A) :
  last (map g l) (g d) = g (last l d).
Proof.
  induction l as [|x l IH]; [reflexivity|].
  simpl. destruct l; [reflexivity|exact IH].
Qed.

Lemma last_elem_lowered (s : string) :
  filepath.last_elem (strings.map_bytes strings.lowerByte s)
  = strings.map_bytes strings.lowerByte (filepath.last_elem s).
Proof.
  unfold filepath.last_elem. rewrite split_lowered.
  change "" with (strings.map_bytes strings.lowerByte "") at 1.
  apply last_of_map.
Qed.

Lemma ContainsByte_dot_lowered (s : string) :
  strings.ContainsByte "." (strings.map_bytes strings.lowerByte s)
  = strings.ContainsByte "." s.
Proof.
  induction s as [|c s IH]; [reflexivity|].
  cbn [strings.map_bytes strings.ContainsByte].
  rewrite (proj2 (lowerByte_keeps c)), IH. reflexivity.
Qed.

Lemma ext_of_lowered (s : string) :
  filepath.ext_of (strings.map_bytes strings.lowerByte s)
  = strings.map_bytes strings.lowerByte (filepath.ext_of s).
Proof.
  induction s as [|c s IH]; [reflexivity|].
  cbn [strings.map_bytes filepath.ext_of].
  rewrite ContainsByte_dot_lowered, (proj2 (lowerByte_keeps c)), IH.
  destruct (strings.ContainsByte "." s); [reflexivity|].
  destruct (Ascii.eqb c "."); reflexivity.
Qed.

Lemma isASCII_ext_of (s : string) :
  strings.isASCII s = true -> strings.isASCII (filepath.ext_of s) = true.
Proof.
  induction s as [|c s IH]; [reflexivity|].
  cbn [strings.isASCII filepath.ext_of]. intros H.
  apply Bool.andb_true_iff in H. destruct H as [Hc Hs].
  destruct (strings.ContainsByte "." s); [apply IH; exact Hs|].
  destruct (Ascii.eqb c "."); [|reflexivity].
  cbn [strings.isASCII]. rewrite Hc, Hs. reflexivity.
Qed.

Lemma isASCII_split (s e : string) :
  strings.isASCII s = true -> In e (path.split s) -> strings.isASCII e = true.
Proof.
  revert e. induction s as [|c s IH]; intros e H.
  - intros [<-|[]]. reflexivity.
  - cbn [strings.isASCII] in H. apply Bool.andb_true_iff in H. destruct H as [Hc Hs].
    cbn [path.split]. destruct (Ascii.eqb c "/").
    + intros [<-|He]; [reflexivity|apply IH; assumption].
    + destruct (path.split s) as [|h t] eqn:E.
      * intros [<-|[]]. cbn [strings.isASCII]. rewrite Hc. reflexivity.
      * intros [<-|He]; [|apply IH; [exact Hs|right; exact He]].
        cbn [strings.isASCII]. rewrite Hc. apply IH; [exact Hs|left; reflexivity].
Qed.

Lemma isASCII_Ext (s : string) :
  strings.isASCII s = true -> strings.isASCII (filepath.Ext s) = true.
Proof.
  intros H. unfold filepath.Ext. apply isASCII_ext_of.
  apply (isASCII_split s); [exact H|].
  unfold filepath.last_elem.
  destruct (exists_last (split_not_nil s)) as (l & a & E).
  rewrite E, last_last. apply in_or_app. right. left. reflexivity.
Qed.

Lemma lowered_Ext (u : string -> string) (s : string) :
  strings.isASCII s = true ->
  strings.ToLower u (filepath.Ext s)
  = filepath.Ext (strings.map_bytes strings.lowerByte s).
Proof.
  intros H. unfold strings.ToLower. rewrite (isASCII_Ext _ H).
  unfold filepath.Ext. rewrite last_elem_lowered, ext_of_lowered. reflexivity.
Qed.

(** Icon and class do not depend on the case of the letters of a name:
    two records of the same kind and MIME type whose names, made of ASCII
    bytes, are equal once lowered get the same icon and the same class. *)
Theorem class_ignores_case (w : World) (f g : FileInfo) :
  IsDir f = IsDir g -> MimeType f = MimeType g ->
  strings.isASCII (Name f) = true -> strings.isASCII (Name g) = true ->
  strings.ToLower (unicodeLower w) (Name f) = strings.ToLower (unicodeLower w) (Name g) ->
  GetFileClass w f = GetFileClass w g /\ GetFileIcon w f = GetFileIcon w g.
Proof.
  intros Hd Hm Hf Hg Hl. unfold strings.ToLower in Hl. rewrite Hf, Hg in Hl.
  assert (He : strings.ToLower (unicodeLower w) (filepath.Ext (Name f))
               = strings.ToLower (unicodeLower w) (filepath.Ext (Name g))).
  { rewrite !lowered_Ext by assumption. rewrite Hl. reflexivity. }
  unfold GetFileClass, GetFileIcon. rewrite Hd, Hm, He. split; reflexivity.
Qed.

Lemma class_ignores_case_witness :
  let f := {| Name := "Holiday.MP4"; Path := "/Holiday.MP4"; Size := 1; ModTime := 0;
              IsDir := false; MimeType := "application/octet-stream";
              EncodedPath := "%2FHoliday.MP4" |} in
  let g := {| Name := "holiday.mp4"; Path := "/holiday.mp4"; Size := 2; ModTime := 5;
              IsDir := false; MimeType := "application/octet-stream";
              EncodedPath := "%2Fholiday.mp4" |} in
  GetFileClass world0 f = GetFileClass world0 g.
Proof.
  intros f g.
  exact (proj1 (@class_ignores_case world0 f g eq_refl eq_refl eq_refl eq_refl eq_refl)).
Defined.

(** ** Start-up *)

(** [validateMediaDirectory] lets the server start in two cases only: the
    media path, made absolute, is a directory that can be read, or it
    does not exist and could be created.  A path that exists without
    being a directory stops the start. *)
Theorem validateMediaDirectory_accepts_iff (getwd : result string)
  (stat : string -> result FileStat) (mkdirAll : string -> option error)
  (readDir : string -> result (list DirEntry)) (mediaDir : string) :
  fst (validateMediaDirectory getwd stat mkdirAll readDir mediaDir) = None <->
  exists absPath,
    filepath.Abs getwd mediaDir = Ok absPath /\
    ((exists info entries,
        stat absPath = Ok info /\ st_IsDir info = true /\ readDir absPath = Ok entries) \/
     (exists err,
        stat absPath = Err err /\ os_IsNotExist err = true /\ mkdirAll absPath = None)).
Proof.
  unfold validateMediaDirectory.
  destruct (filepath.Abs getwd mediaDir) as [absPath|e].
  - assert (Hin : forall (P : string -> Prop),
              (exists a, Ok absPath = Ok a /\ P a) <-> P absPath).
    { intros P. split; [intros (a & E & H); inversion E; subst; exact H|].
      intros H. exists absPath. auto. }
    rewrite Hin. clear Hin.
    destruct (stat absPath) as [info|err] eqn:Hs.
    + destruct (st_IsDir info) eqn:Hd; simpl.
      * destruct (readDir absPath) as [entries|e] eqn:Hr; simpl.
        -- split; [|reflexivity]. intros _. left. exists info, entries. auto.
        -- split; [discriminate|].
           intros [(i & es & _ & _ & H)|(x & H & _)]; congruence.
      * split; [discriminate|].
        intros [(i & es & H & Hi & _)|(x & H & _)]; congruence.
    + destruct (os_IsNotExist err) eqn:Hn.
      * destruct (mkdirAll absPath) eqn:Hm; simpl.
        -- split; [discriminate|].
           intros [(i & es & H & _)|(x & _ & _ & H)]; congruence.
        -- split; [|reflexivity]. intros _. right. exists err. auto.
      * simpl. split; [discriminate|].
        intros [(i & es & H & _)|(x & H & Hx & _)]; congruence.
  - simpl. split; [discriminate|]. intros (a & E & _). discriminate.
Qed.

Lemma split_dir_no_slash (p : string) :
  strings.ContainsByte "/" p = false -> path.split_dir p = "".
Proof.
  destruct p as [|c p]; [reflexivity|]. intros H. cbn [path.split_dir]. rewrite H.
  reflexivity.
Qed.

(** Asked to write the default configuration to a bare file name,
    [generateConfig] creates no directory: the outcome is that of
    [CreateDefaultConfig], whatever [os.MkdirAll] would do. *)
Theorem generateConfig_bare_name (mkdirAll : string -> option error)
  (marshal : Config -> result string) (writeFile : string -> string -> option error)
  (configPath : string) :
  strings.ContainsByte "/" configPath = false ->
  generateConfig mkdirAll marshal writeFile configPath
  = CreateDefaultConfig marshal writeFile configPath.
Proof.
  intros H. unfold generateConfig, filepath_Dir.
  rewrite (split_dir_no_slash _ H). reflexivity.
Qed.

Lemma generateConfig_bare_name_witness :
  generateConfig (fun _ => Some (mkError false "read-only file system"))
                 (fun _ => Ok "server: {}") (fun _ _ => None) "config.yaml"
  = None.
Proof.
  rewrite (@generateConfig_bare_name _ _ _ "config.yaml" eq_refl). reflexivity.
Defined.

(** ** The comparison of the listing *)

(** The function given to [sort.Slice] meets what [sort.Slice] asks of it,
    whatever the names and whatever the Unicode case tables: it is
    irreflexive and transitive, and it orders the first and the last of
    three records only if the middle one is ordered against one of them.
    Two records are tied exactly when they are of the same kind and have
    the same lowered name. *)
Theorem comparison_is_strict_weak_order (w : World) :
  strict_weak_order (less w) /\
  forall a b, (less w a b = false /\ less w b a = false) <->
              (IsDir a = IsDir b /\ lowerName w a = lowerName w b).
Proof.
  split; [apply less_strict_weak_order|].
  intros a b. split.
  - intros [H1 H2]. apply less_tie; assumption.
  - intros [Hd Hn]. unfold less, lowerName in *. rewrite Hd, Hn.
    rewrite Bool.eqb_reflx. simpl. rewrite ltb_irrefl. split; reflexivity.
Qed.

(** The two checks of the media directory at start-up do not agree on a
    path that exists and is not a directory: [Validate], which only asks
    whether [os.Stat] succeeds, accepts the configuration, and
    [validateMediaDirectory] then refuses it, without creating or reading
    anything. *)
Theorem file_as_media_directory (getwd : result string)
  (stat : string -> result FileStat) (mkdirAll : string -> option error)
  (readDir : string -> result (list DirEntry)) (c : Config) (info : FileStat) :
  (1 <= Port (Server c) <= 65535)%Z ->
  Host (Server c) <> "" ->
  Directory (Media c) <> "" ->
  filepath.Abs getwd (Directory (Media c)) = Ok (Directory (Media c)) ->
  stat (Directory (Media c)) = Ok info ->
  st_IsDir info = false ->
  Validate stat c = None /\
  validateMediaDirectory getwd stat mkdirAll readDir (Directory (Media c))
  = (Some (mkError false ("media path is not a directory: " ++ Directory (Media c))), []).
Proof.
  intros Hp Hh Hd Habs Hs Hi. split.
  - apply Validate_iff. repeat split; try assumption; try lia.
    intros err He. congruence.
  - unfold validateMediaDirectory. rewrite Habs, Hs, Hi. reflexivity.
Qed.

Lemma file_as_media_directory_witness :
  let c := {| Server := {| Port := 8080; Host := "0.0.0.0" |};
              Media := {| Directory := "/data/a.mp4" |} |} in
  Validate (Stat world_files) c = None /\
  fst (validateMediaDirectory (Ok "/srv") (Stat world_files) (fun _ => None)
         (ReadDir world_files) "/data/a.mp4") <> None.
Proof.
  intro c.
  destruct (@file_as_media_directory (Ok "/srv") (Stat world_files) (fun _ => None)
              (ReadDir world_files) c
              {| st_Name := "a.mp4"; st_Size := 1; st_ModTime := 0; st_IsDir := false |})
    as [HV HM].
  - simpl. lia.
  - simpl. discriminate.
  - simpl. discriminate.
  - reflexivity.
  - reflexivity.
  - reflexivity.
  - split; [exact HV|].
    change (fst (validateMediaDirectory (Ok "/srv") (Stat world_files) (fun _ => None)
                   (ReadDir world_files) (Directory (Media c))) <> None).
    rewrite HM. discriminate.
Defined.

(** ** Following a link *)




(** ** The request method *)

(** The request method is inspected nowhere in [handleRequest],
    [serveDirectory] or [serveFile].  Of two requests for the same path,
    either the handler answers both itself, and then status, headers,
    body, log lines and calls are the same; or a file is handed to
    [http.ServeContent] for both, and the two responses prepared by the
    handler differ in nothing but the request that is handed over with
    the file.  The status is then chosen by [http.ServeContent], which
    does look at the method. *)
Theorem method_reaches_only_ServeContent (w : World) (cfg : Config) (r : Request)
  (m : string) :
  let r' := {| Method := m; URL_Path := URL_Path r |} in
  let c := handleRequest w cfg r conn0 in
  let c' := handleRequest w cfg r' conn0 in
  (exists s, statusCode c = Some s /\ c' = c) \/
  (exists name modtime p,
     statusCode c = None /\ statusCode c' = None /\
     body c = [ServeContent r name modtime p] /\
     body c' = [ServeContent r' name modtime p] /\
     header c' = header c /\ logged c' = logged c /\ syscalls c' = syscalls c).
Proof.
  intros r' c c'. subst c c'. rewrite !handleRequest_resolve.
  change (URL_Path r') with (URL_Path r).
  destruct (resolve w cfg (URL_Path r)) as [ | | |fullPath cleanPath];
    try (left; eexists; split; reflexivity).
  unfold dispatch. change (URL_Path r') with (URL_Path r).
  destruct (Stat w fullPath) as [fi|err].
  - destruct (st_IsDir fi).
    + left. unfold serveDirectory.
      destruct (ReadDir w fullPath); [destruct (snd (Execute w _))|];
        eexists; split; reflexivity.
    + unfold serveFile. destruct (Open w fullPath).
      * left. eexists; split; reflexivity.
      * right. do 3 eexists. repeat split; reflexivity.
  - left. destruct (os_IsNotExist err); eexists; split; reflexivity.
Qed.
